(** * tgiistat: the SRP login handshake, the page fetch and the statistics
      extraction of [tgiistat.py], as a shallow embedding.

    The script talks to a modem over HTTP ([requests]), runs SRP-6a through
    the [srp] package and walks the page with BeautifulSoup.  Those three
    packages are not part of the script: the device and the SRP primitives
    are interfaces ([Device], [SrpLib]), the HTML parser and [float] are
    an interface ([PageLib]).  Everything the script itself does (the order
    of the calls, the checks, what is put in each request, how the values
    of the page are paired) is written out and executable. *)

From Stdlib Require Import ZArith Ascii String.
From Stdlib.Strings Require Import Byte.
From stdpp Require Import base option list strings gmap.

Local Open Scope Z_scope.

#[local] Set Warnings "-register-all".

(** ** Python values *)

(** A decoded JSON document, as [Response.json()] returns it.  The members
    of an object are the items of the [dict], one pair per key. *)
Inductive JSON : Type :=
  | JNull
  | JBool (b : bool)
  | JNum (n : Z)
  | JStr (s : string)
  | JArr (items : list JSON)
  | JObj (members : list (string * JSON)).

(** Exceptions that can leave [connect], [fetch] and [parse].  The four
    [Exception(...)] raised by the script carry the arguments of their
    message; the others are raised by the interpreter or a package.
    The tags tell the place that raised, not the Python class:
    [RequestException] is a request that got no response and
    [JSONDecodeError] is [.json()] on a body that is not JSON, which in
    requests 2.27 and later is itself a subclass of
    requests.RequestException. *)
Inductive exn : Type :=
  | BadCsrfResponse                 (* Exception("Bad csrf response") *)
  | ErrorAuthenticating (status : Z)(* Exception("Error authenticating %d") *)
  | DidntConnect (status : Z)       (* Exception("Didn't connect, error %d") *)
  | AuthenticationError (detail : JSON)
                                    (* Exception("Authentication error. Wrong password? (%s)") *)
  | RequestException                (* requests: no response obtained *)
  | JSONDecodeError                 (* Response.json() on a body that is not JSON *)
  | KeyError (key : string)
  | TypeError
  | ValueError                      (* unhexlify of a non-ASCII str; float() of bad text *)
  | binascii_Error                  (* odd length or a non-hexadecimal digit *)
  | IndexError
  | AttributeError
  | ValueError_unpack (expected got : nat)
                                    (* not enough values to unpack (expected n, got m) *)
  | ValueError_too_many (expected : nat).
                                    (* too many values to unpack (expected n) *)

Inductive result (A : Type) : Type :=
  | Ok (a : A)
  | Raise (e : exn).
Arguments Ok {A} a.
Arguments Raise {A} e.

Definition is_Ok {A} (r : result A) : bool :=
  match r with Ok _ => true | Raise _ => false end.

Definition rbind {A B} (r : result A) (k : A -> result B) : result B :=
  match r with Ok a => k a | Raise e => Raise e end.

(** ** Strings: substring search, replace, strip *)

Fixpoint starts_with (p s : string) : bool :=
  match p, s with
  | EmptyString, _ => true
  | String a p', String b s' => if Ascii.eqb a b then starts_with p' s' else false
  | String _ _, EmptyString => false
  end.

(** [p in s] for two [str]. *)
Fixpoint str_contains (p s : string) : bool :=
  starts_with p s ||
  match s with
  | EmptyString => false
  | String _ s' => str_contains p s'
  end.

Fixpoint drop_str (n : nat) (s : string) : string :=
  match n, s with
  | O, _ => s
  | S n', String _ s' => drop_str n' s'
  | S _, EmptyString => EmptyString
  end.

(** [s.replace(p, '')] for a non-empty [p]: the occurrences are removed
    from left to right, without overlap.  [fuel] bounds the number of
    characters still to be read. *)
Fixpoint remove_all_fuel (fuel : nat) (p s : string) : string :=
  match fuel with
  | O => s
  | S fuel' =>
      match s with
      | EmptyString => EmptyString
      | String c s' =>
          if starts_with p s
          then remove_all_fuel fuel' p (drop_str (String.length p) s)
          else String c (remove_all_fuel fuel' p s')
      end
  end.

Definition str_remove (p s : string) : string :=
  match p with
  | EmptyString => s
  | _ => remove_all_fuel (String.length s) p s
  end.

(** The characters [str.strip()] removes, among the first 256 code points. *)
Definition is_space (c : ascii) : bool :=
  let n := N_of_ascii c in
  ((9 <=? n) && (n <=? 13) || (28 <=? n) && (n <=? 32)
   || (n =? 133) || (n =? 160))%N.

Fixpoint lstrip (s : string) : string :=
  match s with
  | String c s' => if is_space c then lstrip s' else s
  | EmptyString => EmptyString
  end.

Fixpoint rstrip (s : string) : string :=
  match s with
  | EmptyString => EmptyString
  | String c s' =>
      match rstrip s' with
      | EmptyString => if is_space c then EmptyString else String c EmptyString
      | r => String c r
      end
  end.

Definition strip (s : string) : string := rstrip (lstrip s).

(** ** binascii *)

Definition hexdigit (n : N) : ascii :=
  if (n <? 10)%N then ascii_of_N (48 + n) else ascii_of_N (87 + n).

Definition hexval (c : ascii) : option N :=
  let n := N_of_ascii c in
  if ((48 <=? n) && (n <=? 57))%N then Some (n - 48)%N
  else if ((97 <=? n) && (n <=? 102))%N then Some (n - 87)%N
  else if ((65 <=? n) && (n <=? 70))%N then Some (n - 55)%N
  else None.

Fixpoint hexlify (b : list byte) : string :=
  match b with
  | [] => EmptyString
  | x :: b' =>
      let n := Byte.to_N x in
      String (hexdigit (n / 16)) (String (hexdigit (n mod 16)) (hexlify b'))
  end.

Fixpoint unhex_pairs (s : string) : option (list byte) :=
  match s with
  | EmptyString => Some []
  | String _ EmptyString => None
  | String c1 (String c2 s') =>
      match hexval c1, hexval c2 with
      | Some h, Some l =>
          match Byte.of_N (16 * h + l), unhex_pairs s' with
          | Some x, Some b => Some (x :: b)
          | _, _ => None
          end
      | _, _ => None
      end
  end.

Fixpoint all_ascii (s : string) : bool :=
  match s with
  | EmptyString => true
  | String c s' => (N_of_ascii c <? 128)%N && all_ascii s'
  end.

(** [binascii.unhexlify] of a [str]. *)
Definition unhexlify (s : string) : result (list byte) :=
  if all_ascii s then
    match unhex_pairs s with
    | Some b => Ok b
    | None => Raise binascii_Error
    end
  else Raise ValueError.

(** ** OpenSSL's BN_hex2bn, as [_ctsrp] binds it: the leading hexadecimal
    digits of [str] are read into the number; with no digit at all the
    number is left as it was. *)
Fixpoint hex_digits_value (acc : Z) (n : nat) (s : string) : Z * nat :=
  match s with
  | EmptyString => (acc, n)
  | String c s' =>
      match hexval c with
      | Some d => hex_digits_value (16 * acc + Z.of_N d) (S n) s'
      | None => (acc, n)
      end
  end.

Definition BN_hex2bn (bn : Z) (str : string) : Z :=
  let '(neg, digits) :=
    match str with
    | String "-"%char s' => (true, s')
    | _ => (false, str)
    end in
  match hex_digits_value 0 0 digits with
  | (_, O) => bn
  | (v, S _) => if neg then - v else v
  end.

(** ** What Python does with a decoded JSON value *)

Fixpoint assoc (k : string) (d : list (string * JSON)) : option JSON :=
  match d with
  | [] => None
  | (k', v) :: d' => if String.eqb k k' then Some v else assoc k d'
  end.

Definition is_str (k : string) (j : JSON) : bool :=
  match j with JStr s => String.eqb k s | _ => false end.

(** [j[k]] for a [str] key. *)
Definition py_getitem (j : JSON) (k : string) : result JSON :=
  match j with
  | JObj d => match assoc k d with Some v => Ok v | None => Raise (KeyError k) end
  | _ => Raise TypeError
  end.

(** [k in j] for a [str] [k]. *)
Definition py_contains (k : string) (j : JSON) : result bool :=
  match j with
  | JObj d => Ok (bool_decide (is_Some (assoc k d)))
  | JArr l => Ok (existsb (is_str k) l)
  | JStr s => Ok (str_contains k s)
  | _ => Raise TypeError
  end.

(** [len(j)]. *)
Definition py_len (j : JSON) : result Z :=
  match j with
  | JStr s => Ok (Z.of_nat (String.length s))
  | JArr l => Ok (Z.of_nat (length l))
  | JObj d => Ok (Z.of_nat (length d))
  | _ => Raise TypeError
  end.

(** [binascii.unhexlify(j)]. *)
Definition unhexlify_value (j : JSON) : result (list byte) :=
  match j with
  | JStr s => unhexlify s
  | _ => Raise TypeError
  end.

(** [binascii.hexlify(m)] where [m] may be [None]. *)
Definition hexlify_value (m : option (list byte)) : result string :=
  match m with
  | Some b => Ok (hexlify b)
  | None => Raise TypeError
  end.

(** ** The device, seen through [requests] *)

Inductive Method : Type := GET | POST.

(** A [requests.Session] object: its identity stands for its cookie jar. *)
Definition Session : Type := nat.

(** One HTTP request: [via] is the session (the cookies) it is sent with,
    [data] the form fields of a POST in the order of the dict literal. *)
Record Request : Type := mkRequest {
  meth : Method;
  url : string;
  via : Session;
  data : list (string * string)
}.

(** What the script reads of a response: [json] is what [.json()] returns,
    [None] when the body is not JSON and [.json()] raises. *)
Record Response : Type := mkResponse {
  status_code : Z;
  text : string;
  json : option JSON
}.

(** The modem: any state machine answering requests.  [None] is a request
    that got no response ([requests] raises). *)
Class Device : Type := {
  dev_state : Type;
  serve : dev_state -> Request -> dev_state * option Response
}.

(** ** The [srp] package *)

(** The fields of an [srp.User] that the script or the protocol depends on:
    identity, password, the secret exponent drawn at construction and the
    multiplier [k], which the script overwrites. *)
Record User : Type := mkUser {
  user_I : string;
  user_p : string;
  user_a : Z;
  user_k : Z
}.

(** SRP-6a for SHA-256 and the 2048-bit group, as [srp] provides it:
    [H_N_g] is the multiplier the constructor derives, H(N || PAD(g));
    [BN_rand n] is the n-th 256-bit draw of the random generator;
    [srp_A u] the client ephemeral as bytes; [srp_M u s B] the client
    proof, [None] when the package refuses the challenge. *)
Class SrpLib : Type := {
  H_N_g : Z;
  BN_rand : nat -> Z;
  srp_A : User -> list byte;
  srp_M : User -> list byte -> list byte -> option (list byte)
}.

Definition start_authentication `{SrpLib} (u : User) : string * list byte :=
  (user_I u, srp_A u).

Definition process_challenge `{SrpLib} (u : User) (s B : list byte)
  : option (list byte) := srp_M u s B.

(** The custom multiplier of the router. *)
Definition K_HEX : string :=
  "05b9e8ef059c6b32ea59fc1d322d37f04aa30bae5aa9003b8321e21ddb04e300".

Definition K_ROUTER : Z :=
  0x05b9e8ef059c6b32ea59fc1d322d37f04aa30bae5aa9003b8321e21ddb04e300.

(** ** The world the script runs in, and its monad *)

Record World `{Device} : Type := mkWorld {
  dev : dev_state;
  sent : list Request;      (* every request issued so far, oldest first *)
  sessions : nat;           (* Session objects created so far *)
  users : nat               (* srp.User objects created so far *)
}.

Definition M `{Device} (A : Type) : Type := World -> result A * World.

Definition ret `{Device} {A} (a : A) : M A := fun w => (Ok a, w).

Definition raise `{Device} {A} (e : exn) : M A := fun w => (Raise e, w).

Definition bind `{Device} {A B} (m : M A) (k : A -> M B) : M B :=
  fun w =>
    match m w with
    | (Ok a, w') => k a w'
    | (Raise e, w') => (Raise e, w')
    end.

Definition lift `{Device} {A} (r : result A) : M A := fun w => (r, w).

Notation "x <- m ;; k" := (bind m (fun x => k))
  (at level 100, m at next level, right associativity).

(** The configuration read from [tgiistat.toml]. *)
Record Config : Type := mkConfig {
  address : string;
  username : string;
  password : string
}.

Record Fetcher : Type := mkFetcher {
  config : Config;
  top_url : string;
  session : option Session
}.

Section Script.
Context `{Device} `{SrpLib}.

(** [requests.Session()] *)
Definition requests_Session : M Session := fun w =>
  (Ok (sessions w),
   mkWorld _ (dev w) (sent w) (S (sessions w)) (users w)).

Definition send (rq : Request) : M Response := fun w =>
  let '(d, out) := serve (dev w) rq in
  let w' := mkWorld _ d (sent w ++ [rq]) (sessions w) (users w) in
  match out with
  | Some r => (Ok r, w')
  | None => (Raise RequestException, w')
  end.

(** [session.get(url)] and [session.post(url, data=data)] *)
Definition session_get (s : Session) (u : string) : M Response :=
  send (mkRequest GET u s []).

Definition session_post (s : Session) (u : string)
    (d : list (string * string)) : M Response :=
  send (mkRequest POST u s d).

(** [r.json()] *)
Definition response_json (r : Response) : result JSON :=
  match json r with
  | Some j => Ok j
  | None => Raise JSONDecodeError
  end.

(** [srp.User(username, password, hash_alg=srp.SHA256, ng_type=srp.NG_2048)] *)
Definition srp_User (username password : string) : M User := fun w =>
  (Ok (mkUser username password (BN_rand (users w)) H_N_g),
   mkWorld _ (dev w) (sent w) (sessions w) (S (users w))).

(** [srp._mod.BN_hex2bn(srp_user.k, hex)]: the bignum behind [k] is
    overwritten in place. *)
Definition set_k_hex (u : User) (hex : string) : User :=
  mkUser (user_I u) (user_p u) (user_a u) (BN_hex2bn (user_k u) hex).

(** [Fetcher.__init__] *)
Definition Fetcher_init (c : Config) : Fetcher :=
  mkFetcher c ("http://" +:+ address c) None.

Definition csrf_url (self : Fetcher) : string :=
  top_url self +:+ "/login.lp?action=getcsrf".

Definition auth_url (self : Fetcher) : string :=
  top_url self +:+ "/authenticate".

Definition modem_url (self : Fetcher) : string :=
  top_url self +:+ "/modals/broadband-bridge-modal.lp".

(** [Fetcher.connect] *)
Definition connect (self : Fetcher) : M Session :=
  session <- requests_Session ;;
  (* Fetch CSRF *)
  r <- session_get session (csrf_url self) ;;
  let csrf := text r in
  if negb (Z.of_nat (String.length csrf) =? 64) then raise BadCsrfResponse
  else
  (* Perform SRP *)
  srp_user <- srp_User (username (config self)) (password (config self)) ;;
  let srp_user := set_k_hex srp_user K_HEX in
  let '(I_, A) := start_authentication srp_user in
  let A := hexlify A in
  let req_data := [("I", I_); ("A", A); ("CSRFtoken", csrf)] in
  (* Send the first SRP request *)
  auth1 <- session_post session (auth_url self) req_data ;;
  if negb (status_code auth1 =? 200)
  then raise (ErrorAuthenticating (status_code auth1))
  else
  j <- lift (response_json auth1) ;;
  s <- lift (py_getitem j "s") ;;
  B <- lift (py_getitem j "B") ;;
  _ <- lift (py_len s) ;;
  _ <- lift (py_len B) ;;
  s <- lift (unhexlify_value s) ;;
  B <- lift (unhexlify_value B) ;;
  M <- lift (hexlify_value (process_challenge srp_user s B)) ;;
  let req_data := [("M", M); ("CSRFtoken", csrf)] in
  (* Send our response to the SRP challenge *)
  auth2 <- session_post session (auth_url self) req_data ;;
  if negb (status_code auth2 =? 200)
  then raise (DidntConnect (status_code auth2))
  else
  j <- lift (response_json auth2) ;;
  has_error <- lift (py_contains "error" j) ;;
  if (has_error : bool)
  then (detail <- lift (py_getitem j "error") ;;
        raise (AuthenticationError detail))
  else ret session.

(** [Fetcher.fetch]: the result, the object after the call, the world
    after the call.  An exception in [connect] leaves [self.session]
    as it was. *)
Definition fetch (self : Fetcher) (w : World)
    : result string * Fetcher * World :=
  let '(got, self1, w1) :=
    match session self with
    | Some s => (Ok s, self, w)
    | None =>
        match connect self w with
        | (Ok s, w1) => (Ok s, mkFetcher (config self) (top_url self) (Some s), w1)
        | (Raise e, w1) => (Raise e, self, w1)
        end
    end in
  match got with
  | Raise e => (Raise e, self1, w1)
  | Ok s =>
      match session_get s (modem_url self1) w1 with
      | (Ok r, w2) => (Ok (text r), self1, w2)
      | (Raise e, w2) => (Raise e, self1, w2)
      end
  end.

(** A caller that calls [fetch] [n] times on one object. *)
Fixpoint fetch_times (n : nat) (self : Fetcher) (w : World)
    : list (result string) * Fetcher * World :=
  match n with
  | O => ([], self, w)
  | S n' =>
      let '(r, self1, w1) := fetch self w in
      let '(rs, self2, w2) := fetch_times n' self1 w1 in
      (r :: rs, self2, w2)
  end.

End Script.

(** ** The page, seen through BeautifulSoup *)

(** The tree BeautifulSoup builds: strings and tags (attributes are never
    read by the script). *)
Inductive node : Type :=
  | NavigableString (s : string)
  | Tag (name : string) (contents : list node).

(** [BeautifulSoup html] is the content of the document object built by
    [BeautifulSoup(html, 'html.parser')]; [float s] is Python's [float(s)],
    [None] when it raises ValueError. *)
Class PageLib : Type := {
  float_t : Type;
  float : string -> option float_t;
  BeautifulSoup : string -> list node
}.

(** The strings below a node, in document order. *)
Fixpoint strings (n : node) : list string :=
  match n with
  | NavigableString s => [s]
  | Tag _ c => flat_map strings c
  end.

(** The ancestors (nearest first) of the first string equal to [title]
    below [n], in document order; [anc] are the ancestors of [n]. *)
Fixpoint locate (title : string) (anc : list node) (n : node)
    : option (list node) :=
  match n with
  | NavigableString s => if String.eqb s title then Some anc else None
  | Tag _ c =>
      (fix first_in (l : list node) : option (list node) :=
         match l with
         | [] => None
         | x :: l' =>
             match locate title (n :: anc) x with
             | Some a => Some a
             | None => first_in l'
             end
         end) c
  end.

(** The document object: a tag named [[document]] whose parent is [None]. *)
Definition document (soup : list node) : node := Tag "[document]" soup.

(** [soup.find_all(string=title)[0].parent.parent] *)
Definition grandparent (soup : list node) (title : string) : result node :=
  match locate title [] (document soup) with
  | None => Raise IndexError
  | Some (_ :: gp :: _) => Ok gp
  | Some _ => Raise AttributeError
  end.

(** [re.compile(unit).search(t)] for the three units of the script, which
    hold no special character of a pattern. *)
Definition re_search (unit t : string) : bool := str_contains unit t.

(** [tag.find_all(string=re.compile(unit))] *)
Definition find_all_string (unit : string) (tag : node) : list string :=
  List.filter (re_search unit) (strings tag).

(** The strings [fetch_pair title unit] finds: the generator it returns
    converts them one at a time, when the caller asks for the next value. *)
Definition fetch_pair (soup : list node) (title unit : string)
    : result (list string) :=
  rbind (grandparent soup title) (fun gp => Ok (find_all_string unit gp)).

Section Parse.
Context `{PageLib}.

(** [float(t.replace(unit,'').strip())] *)
Definition convert (unit t : string) : result float_t :=
  match float (strip (str_remove unit t)) with
  | Some v => Ok v
  | None => Raise ValueError
  end.

(** [x, y = g] for the generator over [updown]: two values are asked
    for, then a third one to see that the generator is exhausted. *)
Definition unpack2 (unit : string) (updown : list string)
    : result (float_t * float_t) :=
  match updown with
  | [] => Raise (ValueError_unpack 2 0)
  | t1 :: g1 =>
      rbind (convert unit t1) (fun x =>
      match g1 with
      | [] => Raise (ValueError_unpack 2 1)
      | t2 :: g2 =>
          rbind (convert unit t2) (fun y =>
          match g2 with
          | [] => Ok (x, y)
          | t3 :: _ => rbind (convert unit t3) (fun _ =>
                       Raise (ValueError_too_many 2))
          end)
      end)
  end.

(** [res[up], res[down] = fetch_pair(title, unit)] *)
Definition assign_pair (soup : list node) (up down title unit : string)
    (res : gmap string float_t) : result (gmap string float_t) :=
  rbind (fetch_pair soup title unit) (fun updown =>
  rbind (unpack2 unit updown) (fun '(x, y) =>
  Ok (<[down := y]> (<[up := x]> res)))).

Definition parse_soup (soup : list node) : result (gmap string float_t) :=
  let res : gmap string float_t := ∅ in
  rbind (assign_pair soup "up_rate" "down_rate" "Line Rate" "Mbps" res) (fun res =>
  rbind (assign_pair soup "up_power" "down_power" "Output Power" "dBm" res) (fun res =>
  rbind (assign_pair soup "up_attenuation" "down_attenuation" "Line Attenuation" "dB" res) (fun res =>
  rbind (assign_pair soup "up_noisemargin" "down_noisemargin" "Noise Margin" "dB" res) (fun res =>
  Ok res)))).

(** [parse] *)
Definition parse (html : string) : result (gmap string float_t) :=
  parse_soup (BeautifulSoup html).

(** The four metric pairs of [parse], in the order it reads them. *)
Definition metrics : list (string * string * string * string) :=
  [("up_rate", "down_rate", "Line Rate", "Mbps");
   ("up_power", "down_power", "Output Power", "dBm");
   ("up_attenuation", "down_attenuation", "Line Attenuation", "dB");
   ("up_noisemargin", "down_noisemargin", "Noise Margin", "dB")].

End Parse.

(** ** Observations of an extraction *)

(** The search [locate] makes below a tag, among its children [l], with
    [p] the ancestors of those children. *)
Definition first_in (title : string) (p : list node) (l : list node)
    : option (list node) :=
  (fix first_in (l : list node) : option (list node) :=
     match l with
     | [] => None
     | x :: l' =>
         match locate title p x with
         | Some a => Some a
         | None => first_in l'
         end
     end) l.

(** Every string of the page, in document order. *)
Definition page_strings (soup : list node) : list string :=
  flat_map strings soup.

(** A place in the tree: the tags from the document down to a node, each
    with its name and the siblings before and after the way down. *)
Definition frame : Type := string * list node * list node.

Fixpoint plug (fs : list frame) (n : node) : node :=
  match fs with
  | [] => n
  | (nm, before, after) :: fs' => Tag nm (before ++ plug fs' n :: after)
  end.

(** The title does not occur to the left of the way down. *)
Definition clear_before (title : string) (fs : list frame) : Prop :=
  Forall (fun f : frame => ~ In title (page_strings (snd (fst f)))) fs.

Section ParseObservations.
Context `{PageLib}.

(** What [parse] gets for one metric: the two values, or the exception. *)
Definition pair_of (soup : list node) (m : string * string * string * string)
    : result (float_t * float_t) :=
  let '(_, _, title, unit) := m in
  rbind (fetch_pair soup title unit) (unpack2 unit).

End ParseObservations.

(** ** Test doubles: a scripted device, a small SRP group, a parser for
    plain markup.  They stand in for the packages where a statement is
    evaluated on a concrete run. *)
Module Demo.

(** A device that replays canned responses, one per request. *)
#[export] Instance replay : Device := {|
  dev_state := list (option Response);
  serve := fun st _ =>
    match st with
    | [] => ([], None)
    | r :: st' => (st', r)
    end
|}.

Definition boot (script : list (option Response)) : World :=
  mkWorld replay script [] 0 0.

Definition bytes_to_long (b : list byte) : Z :=
  fold_left (fun acc x => 256 * acc + Z.of_N (Byte.to_N x)) b 0.

Definition one_byte (z : Z) : list byte :=
  match Byte.of_N (Z.to_N (z mod 256)) with
  | Some x => [x]
  | None => []
  end.

Definition str_sum (s : string) : Z :=
  fold_left (fun acc c => acc + Z.of_N (N_of_ascii c)) (list_ascii_of_string s) 0.

(** SRP-6a in the group N = 227, g = 2, with an additive checksum as the
    hash: A = g^a, u = H(A, B), x = H(s, I, p),
    S = (B - k g^x)^(a + u x), M = H(A, B, S).  A challenge with
    B = 0 (mod N) is refused. *)
Definition toy_N : Z := 227.
Definition toy_g : Z := 2.
Definition toy_H (l : list Z) : Z :=
  fold_left (fun acc x => (31 * acc + x) mod 65521) l 7.

Fixpoint powmod_pos (b : Z) (e : positive) (m : Z) : Z :=
  match e with
  | xH => b mod m
  | xO e' => let h := powmod_pos b e' m in (h * h) mod m
  | xI e' => let h := powmod_pos b e' m in (h * h * b) mod m
  end.

Definition powmod (b e m : Z) : Z :=
  match e with
  | Z0 => 1 mod m
  | Zpos p => powmod_pos b p m
  | Zneg _ => 0
  end.

Definition toy_A (u : User) : Z := powmod toy_g (user_a u) toy_N.

Definition toy_M (u : User) (s B : list byte) : option (list byte) :=
  let B := bytes_to_long B in
  if B mod toy_N =? 0 then None
  else
    let A := toy_A u in
    let uu := toy_H [A; B] in
    let x := toy_H [bytes_to_long s; str_sum (user_I u); str_sum (user_p u)] in
    let S := powmod (B - user_k u * powmod toy_g x toy_N)
                    (user_a u + uu * x) toy_N in
    Some (one_byte (toy_H [A; B; S])).

#[export] Instance toy_srp : SrpLib := {|
  H_N_g := toy_H [toy_N; toy_g];
  BN_rand := fun n => 5 + Z.of_nat n;
  srp_A := fun u => one_byte (toy_A u);
  srp_M := toy_M
|}.

(** Markup without attributes, entities or comments: [<name>] opens a
    tag, [</name>] closes the innermost open one, the rest is text. *)
Inductive token : Type :=
  | TOpen (name : string)
  | TClose
  | TText (s : string).

Definition snoc_char (s : string) (c : ascii) : string :=
  s +:+ String c EmptyString.

Definition flush (acc : string) (toks : list token) : list token :=
  match acc with
  | EmptyString => toks
  | _ => TText acc :: toks
  end.

Definition close_tag (acc : string) : token :=
  match acc with
  | String "/"%char _ => TClose
  | _ => TOpen acc
  end.

(** [toks] is kept newest first. *)
Fixpoint lex (in_tag : bool) (acc : string) (toks : list token)
    (s : string) : list token :=
  match s with
  | EmptyString => rev (if in_tag then toks else flush acc toks)
  | String c s' =>
      if in_tag then
        if Ascii.eqb c ">"%char
        then lex false EmptyString (close_tag acc :: toks) s'
        else lex true (snoc_char acc c) toks s'
      else
        if Ascii.eqb c "<"%char
        then lex true EmptyString (flush acc toks) s'
        else lex false (snoc_char acc c) toks s'
  end.

(** [stack]: the open tags, innermost first, each with its children so
    far (newest first); [top] are the children of the document. *)
Fixpoint build (stack : list (string * list node)) (top : list node)
    (toks : list token) : list node :=
  match toks with
  | [] =>
      let last :=
        fold_left (fun (inner : list node) '(nm, c) => [Tag nm (rev (inner ++ c))])
          stack [] in
      rev (last ++ top)
  | TText s :: toks' =>
      match stack with
      | [] => build [] (NavigableString s :: top) toks'
      | (nm, c) :: st => build ((nm, NavigableString s :: c) :: st) top toks'
      end
  | TOpen nm :: toks' => build ((nm, []) :: stack) top toks'
  | TClose :: toks' =>
      match stack with
      | [] => build [] top toks'
      | (nm, c) :: [] => build [] (Tag nm (rev c) :: top) toks'
      | (nm, c) :: (nm', c') :: st =>
          build ((nm', Tag nm (rev c) :: c') :: st) top toks'
      end
  end.

Definition markup (html : string) : list node :=
  build [] [] (lex false EmptyString [] html).

(** Plain decimals, [digits] or [digits.digits] with an optional sign:
    the value is [fst] times ten to the minus [snd]. *)
Definition digit_val (c : ascii) : option Z :=
  let n := N_of_ascii c in
  if ((48 <=? n) && (n <=? 57))%N then Some (Z.of_N (n - 48)) else None.

Fixpoint read_decimal (seen_dot : bool) (m : Z) (d : nat) (any : bool)
    (s : string) : option (Z * nat) :=
  match s with
  | EmptyString => if any then Some (m, d) else None
  | String c s' =>
      match digit_val c with
      | Some v => read_decimal seen_dot (10 * m + v)
                    (if seen_dot then S d else d) true s'
      | None =>
          if Ascii.eqb c "."%char && negb seen_dot
          then read_decimal true m d any s'
          else None
      end
  end.

Definition decimal (s : string) : option (Z * nat) :=
  match s with
  | String "-"%char s' =>
      match read_decimal false 0 0 false s' with
      | Some (m, d) => Some (- m, d)
      | None => None
      end
  | String "+"%char s' => read_decimal false 0 0 false s'
  | _ => read_decimal false 0 0 false s
  end.

#[export] Instance plain_page : PageLib := {|
  float_t := Z * nat;
  float := decimal;
  BeautifulSoup := markup
|}.

(** Canned traffic. *)
Definition token64 : string :=
  "aaaaaaaaaaaaaaaaaaaaaaaaaaaaaaaaaaaaaaaaaaaaaaaaaaaaaaaaaaaaaaaa".

Definition csrf_ok : Response := mkResponse 200 token64 None.

Definition csrf_short : Response := mkResponse 200 "denied" None.

Definition challenge (s B : string) : Response :=
  mkResponse 200 "(json)" (Some (JObj [("s", JStr s); ("B", JStr B)])).

Definition proof_ok : Response := mkResponse 200 "{}" (Some (JObj [])).

Definition proof_rejected (status : Z) : Response :=
  mkResponse status "(json)"
    (Some (JObj [("error", JStr "Invalid password")])).

Definition row (title v1 v2 : string) : string :=
  "<tr><td>" +:+ title +:+ "</td><td>" +:+ v1 +:+ "</td><td>" +:+ v2
    +:+ "</td></tr>".

Definition row1 (title v1 : string) : string :=
  "<tr><td>" +:+ title +:+ "</td><td>" +:+ v1 +:+ "</td></tr>".

Definition row3 (title v1 v2 v3 : string) : string :=
  "<tr><td>" +:+ title +:+ "</td><td>" +:+ v1 +:+ "</td><td>" +:+ v2
    +:+ "</td><td>" +:+ v3 +:+ "</td></tr>".

Definition table (rows : list string) : string :=
  "<table>" +:+ fold_right String.append "</table>" rows.

Definition rate_row : string := row "Line Rate" "12.3 Mbps" "98.7 Mbps".
Definition power_row : string := row "Output Power" "7.5 dBm" "13.1 dBm".
Definition attenuation_row : string := row "Line Attenuation" "20.4 dB" "11.0 dB".
Definition margin_row : string := row "Noise Margin" "6.1 dB" "9.9 dB".

Definition page_html : string :=
  table [rate_row; power_row; attenuation_row; margin_row].

Definition page_three_rates : string :=
  table [row3 "Line Rate" "12.3 Mbps" "98.7 Mbps" "40.0 Mbps";
         power_row; attenuation_row; margin_row].

Definition page_one_rate : string :=
  table [row1 "Line Rate" "12.3 Mbps";
         power_row; attenuation_row; margin_row].

Definition page_one_margin : string :=
  table [rate_row; power_row; attenuation_row;
         row1 "Noise Margin" "6.1 dB"].

Definition page_ok : Response := mkResponse 200 page_html None.

Definition page_not_found : Response := mkResponse 404 "Not Found" None.

Definition happy : list (option Response) :=
  [Some csrf_ok; Some (challenge "ab12" "cd34"); Some proof_ok; Some page_ok].

Definition modem : Fetcher :=
  Fetcher_init (mkConfig "10.1.1.1" "admin" "hunter2").

End Demo.

(** ** Observations of a run *)

Section Observations.
Context `{Device} `{SrpLib}.

(** The state of the device after it has served [rqs], and its answer
    to [rq] then. *)
Fixpoint dev_after (d : dev_state) (rqs : list Request) : dev_state :=
  match rqs with
  | [] => d
  | rq :: rqs' => dev_after (fst (serve d rq)) rqs'
  end.

Definition reply (d : dev_state) (before : list Request) (rq : Request)
    : option Response :=
  snd (serve (dev_after d before) rq).

(** The requests issued between two worlds. *)
Definition issued (w w' : World) : list Request :=
  drop (length (sent w)) (sent w').

(** The three requests of a handshake started in world [w], and the
    [srp.User] it runs on. *)
Definition csrf_request (self : Fetcher) (w : World) : Request :=
  mkRequest GET (csrf_url self) (sessions w) [].

Definition handshake_user (self : Fetcher) (w : World) : User :=
  mkUser (username (config self)) (password (config self))
         (BN_rand (users w)) K_ROUTER.

Definition first_post (self : Fetcher) (w : World) (csrf : string) : Request :=
  mkRequest POST (auth_url self) (sessions w)
    [("I", username (config self));
     ("A", hexlify (srp_A (handshake_user self w)));
     ("CSRFtoken", csrf)].

Definition second_post (self : Fetcher) (w : World) (csrf M : string) : Request :=
  mkRequest POST (auth_url self) (sessions w)
    [("M", M); ("CSRFtoken", csrf)].

Definition page_request (self : Fetcher) (s : Session) : Request :=
  mkRequest GET (modem_url self) s [].

(** Every string a request puts on the wire. *)
Definition request_texts (rq : Request) : list string :=
  url rq :: flat_map (fun kv => [fst kv; snd kv]) (data rq).

Definition field (k : string) (rq : Request) : option string :=
  snd <$> List.find (fun kv => String.eqb k (fst kv)) (data rq).

(** Where the strings of the requests of a run started in [w] can come
    from: the three URLs, the names of the form fields, the user name,
    the token the device sent, and the two values SRP computed. *)
Inductive wire_text (self : Fetcher) (w : World) : string -> Prop :=
  | wt_url t :
      t = csrf_url self \/ t = auth_url self \/ t = modem_url self ->
      wire_text self w t
  | wt_name t :
      t = "I" \/ t = "A" \/ t = "M" \/ t = "CSRFtoken" ->
      wire_text self w t
  | wt_username : wire_text self w (username (config self))
  | wt_token r0 :
      reply (dev w) [] (csrf_request self w) = Some r0 ->
      wire_text self w (text r0)
  | wt_A : wire_text self w (hexlify (srp_A (handshake_user self w)))
  | wt_M s B M :
      process_challenge (handshake_user self w) s B = Some M ->
      wire_text self w (hexlify M).

(** The requests a handshake can have issued when it ends, with what
    each one was built from; [true] marks the runs that can have
    returned a session. *)
Inductive handshake_requests (self : Fetcher) (w : World)
    : bool -> list Request -> Prop :=
  | hs_csrf :
      handshake_requests self w false [csrf_request self w]
  | hs_first r0 :
      reply (dev w) [] (csrf_request self w) = Some r0 ->
      String.length (text r0) = 64%nat ->
      handshake_requests self w false
        [csrf_request self w; first_post self w (text r0)]
  | hs_second ok r0 r1 j vs vB s B M :
      reply (dev w) [] (csrf_request self w) = Some r0 ->
      String.length (text r0) = 64%nat ->
      reply (dev w) [csrf_request self w] (first_post self w (text r0))
        = Some r1 ->
      status_code r1 = 200 ->
      json r1 = Some j ->
      py_getitem j "s" = Ok vs ->
      py_getitem j "B" = Ok vB ->
      unhexlify_value vs = Ok s ->
      unhexlify_value vB = Ok B ->
      process_challenge (handshake_user self w) s B = Some M ->
      handshake_requests self w ok
        [csrf_request self w; first_post self w (text r0);
         second_post self w (text r0) (hexlify M)].

End Observations.

Section Handshake.
Context `{Device} `{SrpLib}.
Implicit Types (self : Fetcher) (w : World).

Lemma BN_hex2bn_K_HEX (k : Z) : BN_hex2bn k K_HEX = K_ROUTER.
Proof. reflexivity. Qed.

Lemma issued_app w w' new : sent w' = sent w ++ new -> issued w w' = new.
Proof. unfold issued. intros ->. by rewrite drop_app_length. Qed.

Lemma set_k_router (i p : string) (a k : Z) :
  set_k_hex (mkUser i p a k) K_HEX = mkUser i p a K_ROUTER.
Proof. reflexivity. Qed.

Lemma issued_app3 w (d : dev_state) (n m : nat) (l1 l2 l3 : list Request) :
  issued w (mkWorld _ d (((sent w ++ l1) ++ l2) ++ l3) n m) = l1 ++ l2 ++ l3.
Proof. apply issued_app. simpl. by rewrite <- !app_assoc. Qed.

Lemma issued_app2 w (d : dev_state) (n m : nat) (l1 l2 : list Request) :
  issued w (mkWorld _ d ((sent w ++ l1) ++ l2) n m) = l1 ++ l2.
Proof. apply issued_app. simpl. by rewrite <- !app_assoc. Qed.

Lemma issued_app1 w (d : dev_state) (n m : nat) (l1 : list Request) :
  issued w (mkWorld _ d (sent w ++ l1) n m) = l1.
Proof. by apply issued_app. Qed.

(** Unfold [connect] and follow every branch of it. *)
Ltac start_connect :=
  unfold connect, bind, requests_Session, session_get, session_post, send,
    srp_User, start_authentication, process_challenge, response_json,
    lift, raise, ret;
  simpl; rewrite ?set_k_router.

Ltac branch :=
  match goal with
  | |- context [serve ?d ?rq] =>
      let o := fresh "o" in
      destruct (serve d rq) as [? o] eqn:?; destruct o; simpl in *
  | |- context [if ?b then _ else _] => destruct b eqn:?; simpl in *
  | |- context [match ?x with _ => _ end] => destruct x eqn:?; simpl in *
  end.

Ltac tidy_issued :=
  rewrite ?issued_app3, ?issued_app2, ?issued_app1; simpl.

(** C2. When the body of the answer to the CSRF GET is not 64 characters
    long, [connect] raises "Bad csrf response" and has issued that GET
    and no POST; when it is 64 characters long, the next request is the
    first POST, carrying [I], [A] and that body as [CSRFtoken]. *)
Theorem csrf_length_gate self w r :
  reply (dev w) [] (csrf_request self w) = Some r ->
  (String.length (text r) <> 64%nat ->
     fst (connect self w) = Raise BadCsrfResponse /\
     issued w (snd (connect self w)) = [csrf_request self w]) /\
  (String.length (text r) = 64%nat ->
     exists rest,
       issued w (snd (connect self w))
       = csrf_request self w :: first_post self w (text r) :: rest).
Proof.
  unfold reply, csrf_request. simpl. intros Hr.
  start_connect.
  destruct (serve (dev w) _) as [d1 o1] eqn:E1. simpl in Hr. subst o1.
  split; intros Hlen.
  - destruct (Z.of_nat (String.length (text r)) =? 64) eqn:E; [lia|].
    simpl. tidy_issued. done.
  - rewrite Hlen. simpl.
    repeat branch; tidy_issued; eexists; reflexivity.
Qed.

Ltac tidy_hyps :=
  rewrite ?set_k_router in *;
  repeat match goal with
         | E : match ?x with _ => _ end = _ |- _ =>
             destruct x eqn:?; simplify_eq
         | E : hexlify_value ?m = _ |- _ =>
             destruct m eqn:?; simpl in E; simplify_eq
         end.

Ltac observed :=
  first
    [ done
    | unfold reply, csrf_request, first_post, handshake_user; simpl;
      repeat match goal with
             | E : serve _ _ = _ |- _ => rewrite E; simpl
             end; done
    | match goal with
      | E : negb (_ =? _) = false |- _ =>
          apply negb_false_iff, Z.eqb_eq in E; first [lia | done]
      end ].

Lemma connect_requests self w :
  handshake_requests self w (is_Ok (fst (connect self w)))
    (issued w (snd (connect self w))).
Proof.
  start_connect.
  repeat branch; tidy_issued; tidy_hyps;
    first [ apply hs_csrf
          | eapply hs_first; observed
          | eapply hs_second; observed ].
Qed.

Lemma unhexlify_raises (s : string) (e : exn) :
  unhexlify s = Raise e -> e = binascii_Error \/ e = ValueError.
Proof.
  unfold unhexlify. destruct (all_ascii s); [destruct (unhex_pairs s)|];
    intros; simplify_eq; auto.
Qed.

(** What [connect] does once a 64-character token has come back: the
    first POST is issued, and what follows is decided by the challenge. *)
Lemma connect_after_token self w r0 :
  reply (dev w) [] (csrf_request self w) = Some r0 ->
  String.length (text r0) = 64%nat ->
  exists rest,
    issued w (snd (connect self w))
    = csrf_request self w :: first_post self w (text r0) :: rest /\
    forall r1 j ss sB s B,
      reply (dev w) [csrf_request self w] (first_post self w (text r0))
        = Some r1 ->
      status_code r1 = 200 ->
      json r1 = Some j ->
      py_getitem j "s" = Ok (JStr ss) ->
      py_getitem j "B" = Ok (JStr sB) ->
      unhexlify ss = Ok s ->
      unhexlify sB = Ok B ->
      match process_challenge (handshake_user self w) s B with
      | Some M =>
          exists rest',
            rest = second_post self w (text r0) (hexlify M) :: rest'
      | None => rest = [] /\ fst (connect self w) = Raise TypeError
      end.
Proof.
  intros Hr0 Hlen.
  unfold reply, csrf_request, first_post, handshake_user in *.
  simpl in *. start_connect.
  destruct (serve (dev w) _) as [d1 o1] eqn:E1. simpl in *. subst o1.
  rewrite Hlen. simpl. rewrite ?set_k_router.
  destruct (serve d1 _) as [d2 o2] eqn:E2. simpl in *.
  destruct o2 as [r1'|]; simpl.
  2: { tidy_issued. eexists. split; [reflexivity|]. intros; discriminate. }
  destruct (negb (status_code r1' =? 200)) eqn:Est; simpl.
  { tidy_issued. eexists. split; [reflexivity|].
    intros r1 j ss sB s B [= <-] Hst. apply negb_true_iff, Z.eqb_neq in Est.
    done. }
  destruct (json r1') as [j'|] eqn:Ej; simpl.
  2: { tidy_issued. eexists. split; [reflexivity|].
       intros; simplify_eq; congruence. }
  destruct (py_getitem j' "s") as [vs|] eqn:Es; simpl.
  2: { tidy_issued. eexists. split; [reflexivity|].
       intros; simplify_eq; congruence. }
  destruct (py_getitem j' "B") as [vB|] eqn:EB; simpl.
  2: { tidy_issued. eexists. split; [reflexivity|].
       intros; simplify_eq; congruence. }
  destruct (py_len vs) eqn:Els; simpl.
  2: { tidy_issued. eexists. split; [reflexivity|].
       intros; simplify_eq.
       assert (vs = JStr ss /\ vB = JStr sB) as [-> ->] by (split; congruence).
       discriminate. }
  destruct (py_len vB) eqn:ElB; simpl.
  2: { tidy_issued. eexists. split; [reflexivity|].
       intros; simplify_eq.
       assert (vs = JStr ss /\ vB = JStr sB) as [-> ->] by (split; congruence).
       discriminate. }
  destruct (unhexlify_value vs) as [s'|] eqn:Eus; simpl.
  2: { tidy_issued. eexists. split; [reflexivity|].
       intros; simplify_eq.
       assert (vs = JStr ss /\ vB = JStr sB) as [-> ->] by (split; congruence).
       simpl in *. congruence. }
  destruct (unhexlify_value vB) as [B'|] eqn:EuB; simpl.
  2: { tidy_issued. eexists. split; [reflexivity|].
       intros; simplify_eq.
       assert (vs = JStr ss /\ vB = JStr sB) as [-> ->] by (split; congruence).
       simpl in *. congruence. }
  unfold process_challenge.
  destruct (srp_M _ s' B') as [M|] eqn:EM; simpl.
  - repeat branch; tidy_issued; (eexists; split; [reflexivity|]);
      intros r1 j ss sB s B ? ? ? ? ? ? ?; simplify_eq;
      (assert (vs = JStr ss /\ vB = JStr sB) as [-> ->]
         by (split; congruence));
      simpl in *;
      (assert (s' = s /\ B' = B) as [-> ->] by (split; congruence));
      rewrite EM; eexists; reflexivity.
  - tidy_issued. eexists. split; [reflexivity|].
    intros r1 j ss sB s B ? ? ? ? ? ? ?; simplify_eq.
    assert (vs = JStr ss /\ vB = JStr sB) as [-> ->] by (split; congruence).
    simpl in *.
    assert (s' = s /\ B' = B) as [-> ->] by (split; congruence).
    by rewrite EM.
Qed.

(** C1. The multiplier derived by [srp.User] is overwritten with the
    256-bit constant of the router before [start_authentication] and
    [process_challenge] run.  In every handshake that got its token,
    [connect] issues the first POST, and the [A] in it is the one
    [start_authentication] gives for the user whose [k] is that
    constant; when the challenge decodes, the proof [connect] posts is
    the [M] that [process_challenge] gives for that same user on the
    decoded salt and [B] (and nothing is posted when it gives None).
    H(N || PAD(g)), the multiplier the constructor derived, reaches
    neither. *)
Theorem srp_runs_on_router_k self w r0 :
  let u := handshake_user self w in
  let g := csrf_request self w in
  let out := connect self w in
  reply (dev w) [] g = Some r0 ->
  String.length (text r0) = 64%nat ->
  (forall u0 w1,
      srp_User (username (config self)) (password (config self)) w
        = (Ok u0, w1) ->
      user_k u0 = H_N_g /\ set_k_hex u0 K_HEX = u) /\
  user_k u
    = 0x05b9e8ef059c6b32ea59fc1d322d37f04aa30bae5aa9003b8321e21ddb04e300 /\
  0 <= user_k u < 2 ^ 256 /\
  (exists p1 rest,
     issued w (snd out) = g :: p1 :: rest /\
     meth p1 = POST /\ url p1 = auth_url self /\
     field "I" p1 = Some (fst (start_authentication u)) /\
     field "A" p1 = Some (hexlify (snd (start_authentication u))) /\
     forall r1 j ss sB s B,
       reply (dev w) [g] p1 = Some r1 ->
       status_code r1 = 200 ->
       json r1 = Some j ->
       py_getitem j "s" = Ok (JStr ss) ->
       py_getitem j "B" = Ok (JStr sB) ->
       unhexlify ss = Ok s ->
       unhexlify sB = Ok B ->
       match process_challenge u s B with
       | Some M =>
           exists p2 rest',
             rest = p2 :: rest' /\
             meth p2 = POST /\ url p2 = auth_url self /\
             field "M" p2 = Some (hexlify M)
       | None => rest = [] /\ fst out = Raise TypeError
       end) /\
  Forall (fun rq => forall a, field "A" rq = Some a ->
            a = hexlify (snd (start_authentication u))) (issued w (snd out)) /\
  Forall (fun rq => forall m, field "M" rq = Some m ->
            exists r0 r1 j vs vB s B M,
              reply (dev w) [csrf_request self w]
                (first_post self w (text r0)) = Some r1 /\
              json r1 = Some j /\
              py_getitem j "s" = Ok vs /\ py_getitem j "B" = Ok vB /\
              unhexlify_value vs = Ok s /\ unhexlify_value vB = Ok B /\
              process_challenge u s B = Some M /\
              m = hexlify M) (issued w (snd out)).
Proof.
  intros u g out Hr0 Hlen. split; [|split; [|split; [|split; [|split]]]].
  - unfold srp_User. intros u0 w1 [= <- <-]. done.
  - reflexivity.
  - simpl. unfold K_ROUTER. lia.
  - destruct (connect_after_token self w r0 Hr0 Hlen) as (rest & Hiss & Hch).
    exists (first_post self w (text r0)), rest.
    repeat split; try done.
    intros r1 j ss sB s B H1 H2 H3 H4 H5 H6 H7.
    specialize (Hch r1 j ss sB s B H1 H2 H3 H4 H5 H6 H7).
    fold u in Hch. destruct (process_challenge u s B) as [M|]; [|done].
    destruct Hch as [rest' ->]. eexists _, rest'. repeat split.
  - subst out. destruct (connect_requests self w);
      repeat constructor; intros a; try discriminate;
      intros [= <-]; reflexivity.
  - subst out. destruct (connect_requests self w);
      repeat constructor; intros m; try discriminate.
    intros [= <-]. eexists _, _, _, _, _, _, _, _. repeat split; eassumption.
Qed.

(** C5. In every handshake that succeeds, the token read from the one
    CSRF GET is the [CSRFtoken] field of both POSTs, unchanged; the
    handshake issues that GET and the two POSTs and nothing else. *)
Theorem csrf_token_bound self w s w' :
  connect self w = (Ok s, w') ->
  exists r0 p1 p2,
    reply (dev w) [] (csrf_request self w) = Some r0 /\
    issued w w' = [csrf_request self w; p1; p2] /\
    meth p1 = POST /\ url p1 = auth_url self /\
    meth p2 = POST /\ url p2 = auth_url self /\
    field "CSRFtoken" p1 = Some (text r0) /\
    field "CSRFtoken" p2 = Some (text r0).
Proof.
  intros E. pose proof (connect_requests self w) as R.
  rewrite E in R. simpl in R. inversion R; subst.
  eexists _, _, _. repeat split; eauto.
Qed.

(** C3 (as the script has it). When the [s] or [B] string of the
    challenge is not hexadecimal, [unhexlify] raises and no proof is
    posted.  When both decode, empty or not, the script hands them to
    [process_challenge]: if that refuses ([None]) the handshake ends in
    a TypeError and no proof is posted, otherwise the proof is posted. *)
Theorem challenge_decoding self w r0 r1 j ss sB :
  let g := csrf_request self w in
  let p1 := first_post self w (text r0) in
  let out := connect self w in
  reply (dev w) [] g = Some r0 ->
  String.length (text r0) = 64%nat ->
  reply (dev w) [g] p1 = Some r1 ->
  status_code r1 = 200 ->
  json r1 = Some j ->
  py_getitem j "s" = Ok (JStr ss) ->
  py_getitem j "B" = Ok (JStr sB) ->
  (forall e, unhexlify ss = Raise e ->
     (e = binascii_Error \/ e = ValueError) /\
     fst out = Raise e /\ issued w (snd out) = [g; p1]) /\
  (forall s e, unhexlify ss = Ok s -> unhexlify sB = Raise e ->
     (e = binascii_Error \/ e = ValueError) /\
     fst out = Raise e /\ issued w (snd out) = [g; p1]) /\
  (forall s B, unhexlify ss = Ok s -> unhexlify sB = Ok B ->
     match process_challenge (handshake_user self w) s B with
     | None => fst out = Raise TypeError /\ issued w (snd out) = [g; p1]
     | Some M =>
         exists rest,
           issued w (snd out)
           = g :: p1 :: second_post self w (text r0) (hexlify M) :: rest
     end).
Proof.
  intros g p1 out Hr0 Hlen Hr1 Hst Hj Hs HB.
  subst g p1 out. unfold reply, csrf_request, first_post, handshake_user in *.
  simpl in *. start_connect.
  destruct (serve (dev w) _) as [d1 o1] eqn:E1. simpl in *. subst o1.
  rewrite Hlen. simpl.
  destruct (serve d1 _) as [d2 o2] eqn:E2. simpl in *. subst o2.
  rewrite Hst, Hj, Hs, HB. simpl.
  split; [|split].
  - intros e He. rewrite He. simpl. tidy_issued.
    eauto using unhexlify_raises.
  - intros s e Hs' He. rewrite Hs', He. simpl. tidy_issued.
    eauto using unhexlify_raises.
  - intros s B Hs' HB'. rewrite Hs', HB'. simpl.
    unfold process_challenge.
    destruct (srp_M _ s B) as [M|] eqn:EM; simpl.
    + repeat branch; tidy_issued; eexists; reflexivity.
    + tidy_issued. done.
Qed.

(** C4 (as the script has it). The reply to the proof is judged by its
    status first: any status but 200 ends the handshake with that status
    as the detail, whatever the body holds.  With status 200 and a JSON
    object as body, the handshake succeeds exactly when the object has
    no [error] member; with one, it fails with the value of that member
    as the detail and no other member is read. *)
Theorem proof_reply_verdict self w g p1 p2 r2 :
  let out := connect self w in
  issued w (snd out) = [g; p1; p2] ->
  reply (dev w) [g; p1] p2 = Some r2 ->
  (status_code r2 <> 200 ->
     fst out = Raise (DidntConnect (status_code r2))) /\
  (status_code r2 = 200 -> forall members, json r2 = Some (JObj members) ->
     match assoc "error" members with
     | Some detail => fst out = Raise (AuthenticationError detail)
     | None => fst out = Ok (sessions w)
     end) /\
  (is_Ok (fst out) = true -> status_code r2 = 200).
Proof.
  intros out. subst out. intros Hiss Hr2. revert Hiss.
  start_connect.
  repeat branch; tidy_issued; intros Hiss; simplify_eq;
    unfold reply in Hr2; simpl in Hr2;
    repeat match goal with
           | E : serve _ _ = _ |- _ => rewrite E in Hr2; simpl in Hr2
           end; simplify_eq.
  all: tidy_hyps.
  all: repeat match goal with
              | E : negb (_ =? _) = _ |- _ =>
                  first [ apply negb_false_iff, Z.eqb_eq in E
                        | apply negb_true_iff, Z.eqb_neq in E ]
              end.
  all: split; [|split]; try done.
  all: try (intros _ members Hm; simplify_eq; simpl in *).
  all: try (destruct (assoc "error" members) eqn:Em; simplify_eq; simpl in *).
  all: try done.
  all: try (case_bool_decide as Hd; simplify_eq;
            first [ by destruct Hd | by exfalso; apply Hd; eauto ]).
Qed.

Lemma connect_extends self w :
  sent (snd (connect self w))
  = sent w ++ issued w (snd (connect self w)).
Proof.
  start_connect.
  repeat branch; tidy_issued; rewrite <- ?app_assoc; reflexivity.
Qed.

Lemma connect_sessions self w :
  sessions (snd (connect self w)) = S (sessions w).
Proof. start_connect. repeat branch; reflexivity. Qed.

Lemma fetch_stored self w s :
  session self = Some s ->
  fetch self w =
    match serve (dev w) (page_request self s) with
    | (d, Some r) =>
        (Ok (text r), self,
         mkWorld _ d (sent w ++ [page_request self s]) (sessions w) (users w))
    | (d, None) =>
        (Raise RequestException, self,
         mkWorld _ d (sent w ++ [page_request self s]) (sessions w) (users w))
    end.
Proof.
  intros E. unfold fetch, session_get, send, page_request. rewrite E.
  destruct (serve _ _) as [d [r|]]; reflexivity.
Qed.

(** C6 (as the script has it). Once a session is at hand, stored by an
    earlier call or returned by [connect] in this one, [fetch] returns
    the body of the answer to the page GET unchanged, whatever its
    status: the status of that answer is never read. *)
Theorem fetch_returns_body self w s w1 r :
  (session self = Some s /\ w1 = w) \/
  (session self = None /\ connect self w = (Ok s, w1)) ->
  reply (dev w1) [] (page_request self s) = Some r ->
  fst (fst (fetch self w)) = Ok (text r) /\
  issued w1 (snd (fetch self w)) = [page_request self s].
Proof.
  unfold reply. simpl.
  intros [[E ->]|[E C]] Hr.
  - rewrite (fetch_stored _ _ _ E).
    destruct (serve _ _) as [d o]. simpl in Hr. subst o. simpl.
    by tidy_issued.
  - unfold fetch. rewrite E, C. unfold session_get, send, page_request in *.
    simpl. destruct (serve _ _) as [d o]. simpl in Hr. subst o. simpl.
    by tidy_issued.
Qed.

Lemma fetch_times_stored n self w s :
  session self = Some s ->
  snd (fst (fetch_times n self w)) = self /\
  sessions (snd (fetch_times n self w)) = sessions w /\
  users (snd (fetch_times n self w)) = users w /\
  sent (snd (fetch_times n self w))
  = sent w ++ replicate n (page_request self s).
Proof.
  intros E. revert w. induction n as [|n IH]; intros w; simpl.
  - by rewrite app_nil_r.
  - rewrite (fetch_stored _ _ _ E).
    destruct (serve _ _) as [d [r|]];
      match goal with
      | |- context [fetch_times n self ?w1] =>
          destruct (IH w1) as (I1 & I2 & I3 & I4);
          destruct (fetch_times n self w1) as [[rs self2] w2]
      end; simpl in *; subst;
      rewrite I4, <- app_assoc; done.
Qed.

(** C10 (as the script has it). A call of [fetch] on an object without
    a session runs [connect]; when that succeeds its session is stored,
    when it raises nothing is stored and the exception leaves [fetch].
    From the moment a session is stored, any number of further calls
    create no session and no [srp.User], and issue one page GET each on
    the stored session: the handshake is never run again. *)
Theorem session_stored_and_reused self w :
  (session self = None ->
     match connect self w with
     | (Ok s, w1) =>
         session (snd (fst (fetch self w))) = Some s /\
         sessions (snd (fetch self w)) = S (sessions w)
     | (Raise e, w1) => fetch self w = (Raise e, self, w1)
     end) /\
  (forall s n, session self = Some s ->
     snd (fst (fetch_times n self w)) = self /\
     sessions (snd (fetch_times n self w)) = sessions w /\
     users (snd (fetch_times n self w)) = users w /\
     issued w (snd (fetch_times n self w))
     = replicate n (page_request self s)).
Proof.
  split.
  - intros E. unfold fetch. rewrite E.
    pose proof (connect_sessions self w) as Hs.
    destruct (connect self w) as [[s|e] w1]; [|done]. simpl in Hs.
    unfold session_get, send. destruct (serve _ _) as [d [r|]]; done.
  - intros s n E.
    destruct (fetch_times_stored n self w s E) as (I1 & I2 & I3 & I4).
    repeat split; try done. by apply issued_app.
Qed.

Lemma wire_text_handshake self w ok rqs :
  handshake_requests self w ok rqs ->
  Forall (fun rq => Forall (wire_text self w) (request_texts rq)) rqs.
Proof.
  destruct 1; unfold request_texts; simpl;
    repeat (first [apply Forall_cons; split | apply Forall_nil]);
    first [ exact I
          | solve [apply wt_url; auto]
          | solve [apply wt_name; auto 6]
          | apply wt_username
          | apply wt_A
          | eapply wt_token; eassumption
          | eapply wt_M; eassumption ].
Qed.

Lemma handshake_bodies self w ok rqs :
  handshake_requests self w ok rqs ->
  Forall (fun rq =>
            match meth rq with
            | GET => data rq = []
            | POST => map fst (data rq) = ["I"; "A"; "CSRFtoken"] \/
                      map fst (data rq) = ["M"; "CSRFtoken"]
            end) rqs.
Proof.
  destruct 1; repeat first [apply List.Forall_nil | apply List.Forall_cons];
    simpl; auto.
Qed.

(** C9. The password is in no request of a handshake and fetch: every
    string of every request is a URL, a field name, the user name, the
    token the device sent, or the hexadecimal form of the [A] or the [M]
    that SRP computed; the GETs carry no field at all and the POSTs carry
    the fields I, A, CSRFtoken or M, CSRFtoken and no other.  The
    password goes to [srp.User] and nowhere else. *)
Theorem password_not_in_requests self w :
  let rqs := issued w (snd (fetch self w)) in
  Forall (fun rq => Forall (wire_text self w) (request_texts rq)) rqs /\
  Forall (fun rq =>
            match meth rq with
            | GET => data rq = []
            | POST => map fst (data rq) = ["I"; "A"; "CSRFtoken"] \/
                      map fst (data rq) = ["M"; "CSRFtoken"]
            end) rqs.
Proof.
  intros rqs. subst rqs.
  destruct (session self) as [s|] eqn:E.
  - rewrite (fetch_stored _ _ _ E).
    destruct (serve _ _) as [d [r|]]; simpl; rewrite issued_app1;
      (split; repeat first [apply List.Forall_nil | apply List.Forall_cons];
       simpl; try done; apply wt_url; auto).
  - unfold fetch. rewrite E.
    pose proof (connect_requests self w) as R.
    pose proof (connect_extends self w) as X.
    pose proof (handshake_bodies _ _ _ _ R) as B.
    apply wire_text_handshake in R.
    destruct (connect self w) as [[s|e] w1]; simpl in *; [|done].
    unfold session_get, send.
    destruct (serve _ _) as [d [r|]]; simpl;
      (erewrite issued_app by (simpl; rewrite X, <- app_assoc; reflexivity));
      (split; (apply Forall_app; split; [done|]));
      repeat first [apply List.Forall_nil | apply List.Forall_cons];
      simpl; try done; apply wt_url; auto.
Qed.

End Handshake.

Section Extraction.
Context `{PageLib}.

Lemma unpack2_two (unit t1 t2 : string) x y :
  convert unit t1 = Ok x -> convert unit t2 = Ok y ->
  unpack2 unit [t1; t2] = Ok (x, y).
Proof. intros E1 E2. simpl. rewrite E1. simpl. by rewrite E2. Qed.

Lemma unpack2_few (unit : string) (l : list string) :
  (length l < 2)%nat ->
  unpack2 unit l = Raise (ValueError_unpack 2 (length l)) \/
  unpack2 unit l = Raise ValueError.
Proof.
  destruct l as [|t1 [|t2 l]]; simpl; intros Hl; [auto| |lia].
  unfold convert. destruct (float _); simpl; auto.
Qed.

Lemma convert_float (unit t : string) x :
  convert unit t = Ok x -> float (strip (str_remove unit t)) = Some x.
Proof. unfold convert. destruct (float _); by intros [= ->]. Qed.

(** C7 (as the script has it). When the section of each of the four
    metrics holds exactly two strings with the unit, each one a number
    for [float], [parse] returns a mapping, and in it the first string
    in document order gives the up value and the second the down value,
    whatever their magnitudes. *)
Theorem pairs_in_document_order (html : string) :
  (forall up down title unit, In (up, down, title, unit) metrics ->
     exists t1 t2 x y,
       fetch_pair (BeautifulSoup html) title unit = Ok [t1; t2] /\
       convert unit t1 = Ok x /\ convert unit t2 = Ok y) ->
  exists res,
    parse html = Ok res /\
    forall up down title unit t1 t2,
      In (up, down, title, unit) metrics ->
      fetch_pair (BeautifulSoup html) title unit = Ok [t1; t2] ->
      res !! up = float (strip (str_remove unit t1)) /\
      res !! down = float (strip (str_remove unit t2)).
Proof.
  intros Hall.
  destruct (Hall _ _ _ _ (or_introl eq_refl))
    as (a1 & a2 & ax & ay & Fa & Ca1 & Ca2).
  destruct (Hall _ _ _ _ (or_intror (or_introl eq_refl)))
    as (b1 & b2 & bx & by_ & Fb & Cb1 & Cb2).
  destruct (Hall _ _ _ _ (or_intror (or_intror (or_introl eq_refl))))
    as (c1 & c2 & cx & cy & Fc & Cc1 & Cc2).
  destruct (Hall _ _ _ _
              (or_intror (or_intror (or_intror (or_introl eq_refl)))))
    as (d1 & d2 & dx & dy & Fd & Cd1 & Cd2).
  eexists. split.
  - unfold parse, parse_soup, assign_pair.
    rewrite Fa, Fb, Fc, Fd. cbn [rbind].
    rewrite (unpack2_two _ _ _ _ _ Ca1 Ca2), (unpack2_two _ _ _ _ _ Cb1 Cb2),
      (unpack2_two _ _ _ _ _ Cc1 Cc2), (unpack2_two _ _ _ _ _ Cd1 Cd2).
    cbn [rbind]. reflexivity.
  - intros up down title unit t1 t2 Hin Hf.
    simpl in Hin.
    destruct Hin as [E|[E|[E|[E|[]]]]]; injection E as <- <- <- <-;
      rewrite Hf in *; simplify_eq;
      erewrite !convert_float by eassumption;
      split; by simplify_map_eq.
Qed.

(** C8 (as the script has it). When the section of one of the four
    metrics holds fewer than two strings with the unit, [parse] raises
    and returns no mapping.  What is raised at that metric is the
    ValueError of the unpacking (or the one of [float]); it does not
    name the metric. *)
Theorem too_few_values_raise (html : string) up down title unit l :
  In (up, down, title, unit) metrics ->
  fetch_pair (BeautifulSoup html) title unit = Ok l ->
  (length l < 2)%nat ->
  (exists e, parse html = Raise e) /\
  (unpack2 unit l = Raise (ValueError_unpack 2 (length l)) \/
   unpack2 unit l = Raise ValueError).
Proof.
  intros Hin Hf Hl. split; [|by apply unpack2_few].
  pose proof (unpack2_few unit l Hl) as Hu.
  unfold parse, parse_soup.
  simpl in Hin.
  destruct Hin as [E|[E|[E|[E|[]]]]]; injection E as <- <- <- <-;
    repeat match goal with
           | |- context [rbind (assign_pair ?s ?u ?d ?t ?n ?r) _] =>
               first
                 [ unfold assign_pair at 1; rewrite Hf; cbn [rbind];
                   destruct Hu as [-> | ->]; cbn [rbind]; eauto
                 | destruct (assign_pair s u d t n r) eqn:?; cbn [rbind];
                   [|eauto] ]
           end.
Qed.

End Extraction.

(** ** The statements above, on runs against the test doubles *)
Module Runs.
Import Demo.

(** C1 on a run: the [A] and the [M] that are posted are those of the
    user with the multiplier of the router; with the multiplier the
    constructor derived, the proof for the same challenge would have
    been another one. *)
Lemma router_k_run :
  let w := boot happy in
  exists p1 p2,
    issued w (snd (connect modem w)) = [csrf_request modem w; p1; p2] /\
    field "A" p1 = Some "20" /\
    field "M" p2 = Some "69" /\
    hexlify_value
      (process_challenge (mkUser "admin" "hunter2" 5 K_ROUTER)
         [Byte.xab; Byte.x12] [Byte.xcd; Byte.x34]) = Ok "69" /\
    hexlify_value
      (process_challenge (mkUser "admin" "hunter2" 5 H_N_g)
         [Byte.xab; Byte.x12] [Byte.xcd; Byte.x34]) = Ok "b0".
Proof.
  destruct (srp_runs_on_router_k modem (boot happy) csrf_ok eq_refl eq_refl)
    as (_ & _ & _ & (p1 & rest & Hiss & _ & _ & _ & HA & Hch) & _).
  vm_compute in Hiss. injection Hiss as <- <-.
  specialize (Hch (challenge "ab12" "cd34") _ "ab12" "cd34"
                [Byte.xab; Byte.x12] [Byte.xcd; Byte.x34]
                eq_refl eq_refl eq_refl eq_refl eq_refl eq_refl eq_refl).
  vm_compute in Hch. destruct Hch as (p2 & rest' & E & _ & _ & HM).
  injection E as <- <-.
  eexists _, _. split; [reflexivity|]. split; [exact HA|].
  split; [exact HM|]. split; reflexivity.
Defined.

(** C2 on a run: a six-character answer to the CSRF GET ends the
    handshake after that single GET. *)
Lemma bad_csrf_run :
  let w := boot [Some csrf_short] in
  fst (connect modem w) = Raise BadCsrfResponse /\
  issued w (snd (connect modem w)) = [csrf_request modem w].
Proof.
  apply (proj1 (csrf_length_gate modem (boot [Some csrf_short]) csrf_short
                  eq_refl)).
  simpl. lia.
Defined.

(** C5 on a run: the 64 characters of the first answer are the token of
    both POSTs. *)
Lemma token_on_both_posts_run :
  let w := boot happy in
  exists r0 p1 p2,
    reply (dev w) [] (csrf_request modem w) = Some r0 /\
    issued w (snd (connect modem w)) = [csrf_request modem w; p1; p2] /\
    meth p1 = POST /\ url p1 = auth_url modem /\
    meth p2 = POST /\ url p2 = auth_url modem /\
    field "CSRFtoken" p1 = Some (text r0) /\
    field "CSRFtoken" p2 = Some (text r0).
Proof.
  exact (csrf_token_bound modem (boot happy) 0%nat
           (snd (connect modem (boot happy))) eq_refl).
Defined.

(** C3 does not hold as the specification words it: a challenge whose salt is the empty
    string decodes to no byte at all, and the handshake goes on, posts
    the proof and returns the session. *)
Lemma empty_salt_is_accepted :
  let w := boot [Some csrf_ok; Some (challenge "" "cd34"); Some proof_ok] in
  unhexlify "" = Ok [] /\
  fst (connect modem w) = Ok 0%nat /\
  issued w (snd (connect modem w))
  = [csrf_request modem w; first_post modem w token64;
     second_post modem w token64 "62"].
Proof. vm_compute. done. Qed.

(** C3 on a run: a hexadecimal challenge is handed to
    [process_challenge] and the proof it gives is posted. *)
Lemma hex_challenge_run :
  let w := boot happy in
  exists rest,
    issued w (snd (connect modem w))
    = csrf_request modem w :: first_post modem w token64
        :: second_post modem w token64 "69" :: rest.
Proof.
  exact (proj2 (proj2
           (challenge_decoding modem (boot happy) csrf_ok
              (challenge "ab12" "cd34") _ "ab12" "cd34"
              eq_refl eq_refl eq_refl eq_refl eq_refl eq_refl eq_refl))
           _ _ eq_refl eq_refl).
Defined.

(** C4 does not hold as the specification words it: the reply to the proof has an
    [error] member, yet the detail of the failure is the status 500, not
    the error string of the device. *)
Lemma status_outranks_error :
  let w := boot [Some csrf_ok; Some (challenge "ab12" "cd34");
                 Some (proof_rejected 500)] in
  json (proof_rejected 500)
    = Some (JObj [("error", JStr "Invalid password")]) /\
  fst (connect modem w) = Raise (DidntConnect 500).
Proof. vm_compute. done. Qed.

(** C4 on a run: status 200 and an object without [error] returns the
    session. *)
Lemma accepted_proof_run :
  fst (connect modem (boot happy)) = Ok 0%nat.
Proof.
  exact (proj1 (proj2
           (proof_reply_verdict modem (boot happy)
              (csrf_request modem (boot happy))
              (first_post modem (boot happy) token64)
              (second_post modem (boot happy) token64 "69")
              proof_ok eq_refl eq_refl))
           eq_refl [] eq_refl).
Defined.

(** C6 does not hold as the specification words it: the page GET is answered 404 and
    [fetch] returns the body of that answer instead of failing. *)
Lemma page_status_not_read :
  let w := boot [Some csrf_ok; Some (challenge "ab12" "cd34");
                 Some proof_ok; Some page_not_found] in
  reply (dev (snd (connect modem w))) [] (page_request modem 0%nat)
    = Some page_not_found /\
  status_code page_not_found = 404 /\
  fst (fst (fetch modem w)) = Ok "Not Found".
Proof. vm_compute. done. Qed.

(** C6 on a run: the body of the page comes back as it was sent. *)
Lemma page_body_run :
  let w := boot happy in
  fst (fst (fetch modem w)) = Ok page_html /\
  issued (snd (connect modem w)) (snd (fetch modem w))
  = [page_request modem 0%nat].
Proof.
  apply (fetch_returns_body modem (boot happy) 0%nat
           (snd (connect modem (boot happy))) page_ok).
  - right. split; reflexivity.
  - reflexivity.
Defined.

(** C7 does not hold as the specification words it: with a third Mbps value in the Line
    Rate row, the first two are not taken; the unpacking raises. *)
Lemma third_value_breaks_unpacking :
  fetch_pair (BeautifulSoup page_three_rates) "Line Rate" "Mbps"
    = Ok ["12.3 Mbps"; "98.7 Mbps"; "40.0 Mbps"] /\
  parse page_three_rates = Raise (ValueError_too_many 2).
Proof. vm_compute. done. Qed.

(** C7 on a page: 12.3 Mbps before 98.7 Mbps gives up_rate = 12.3 and
    down_rate = 98.7. *)
Lemma fixture_page_run :
  exists res,
    parse page_html = Ok res /\
    res !! "up_rate" = Some (123, 1%nat) /\
    res !! "down_rate" = Some (987, 1%nat).
Proof.
  destruct (pairs_in_document_order page_html) as (res & Hp & Hall).
  - intros up down title unit Hin. simpl in Hin.
    destruct Hin as [E|[E|[E|[E|[]]]]]; injection E as <- <- <- <-;
      eexists _, _, _, _; repeat split; reflexivity.
  - exists res. split; [exact Hp|].
    exact (Hall "up_rate" "down_rate" "Line Rate" "Mbps"
             "12.3 Mbps" "98.7 Mbps" (or_introl eq_refl) eq_refl).
Defined.

(** C8 does not hold as the specification words it: a page short of a Line Rate value
    and a page short of a Noise Margin value raise the same exception;
    nothing in it tells the label. *)
Lemma unpack_error_names_no_label :
  fetch_pair (BeautifulSoup page_one_rate) "Line Rate" "Mbps"
    = Ok ["12.3 Mbps"] /\
  fetch_pair (BeautifulSoup page_one_margin) "Noise Margin" "dB"
    = Ok ["6.1 dB"] /\
  parse page_one_rate = Raise (ValueError_unpack 2 1) /\
  parse page_one_margin = Raise (ValueError_unpack 2 1).
Proof. vm_compute. done. Qed.

(** C8 on a page: one Line Rate value, no mapping. *)
Lemma one_rate_run :
  (exists e, parse page_one_rate = Raise e) /\
  (unpack2 "Mbps" ["12.3 Mbps"] = Raise (ValueError_unpack 2 1) \/
   unpack2 "Mbps" ["12.3 Mbps"] = Raise ValueError).
Proof.
  apply (too_few_values_raise page_one_rate
           "up_rate" "down_rate" "Line Rate" "Mbps" ["12.3 Mbps"]).
  - left. reflexivity.
  - reflexivity.
  - simpl. lia.
Defined.

(** C9 on a run: where the strings of the four requests come from. *)
Lemma requests_of_a_run :
  let w := boot happy in
  Forall (fun rq => Forall (wire_text modem w) (request_texts rq))
         (issued w (snd (fetch modem w))).
Proof.
  exact (proj1 (password_not_in_requests modem (boot happy))).
Defined.

(** C10 does not hold as the specification words it: two calls of [fetch] on one object
    whose handshake fails run [connect] twice, each with a session of
    its own and a CSRF GET of its own. *)
Lemma failed_connect_runs_again :
  let w := boot [Some csrf_short; Some csrf_short] in
  let out := fetch_times 2 modem w in
  fst (fst out) = [Raise BadCsrfResponse; Raise BadCsrfResponse] /\
  sessions (snd out) = 2%nat /\
  issued w (snd out)
  = [mkRequest GET (csrf_url modem) 0%nat [];
     mkRequest GET (csrf_url modem) 1%nat []].
Proof. vm_compute. done. Qed.

End Runs.

(** ** More of [connect]: the other ways a handshake ends *)

Section HandshakeEnds.
Context `{Device} `{SrpLib}.
Implicit Types (self : Fetcher) (w : World).

Ltac unfold_connect :=
  unfold connect, bind, requests_Session, session_get, session_post, send,
    srp_User, start_authentication, process_challenge, response_json,
    lift, raise, ret;
  simpl; rewrite ?set_k_router.

Ltac case_step :=
  match goal with
  | |- context [serve ?d ?rq] =>
      let o := fresh "o" in
      destruct (serve d rq) as [? o] eqn:?; destruct o; simpl in *
  | |- context [if ?b then _ else _] => destruct b eqn:?; simpl in *
  | |- context [match ?x with _ => _ end] => destruct x eqn:?; simpl in *
  end.

Ltac norm_issued :=
  rewrite ?issued_app3, ?issued_app2, ?issued_app1; simpl.

(** Bring the run to the answer of the first POST. *)
Ltac to_first_answer Hr0 Hlen Hr1 :=
  unfold reply, csrf_request, first_post, handshake_user in *;
  simpl in *; unfold_connect;
  match goal with
  | |- context [serve (dev ?w) ?rq] =>
      destruct (serve (dev w) rq) as [? ?o1] eqn:?; simpl in *; subst
  end;
  rewrite Hlen; simpl; rewrite ?set_k_router;
  match goal with
  | |- context [serve ?d ?rq] =>
      destruct (serve d rq) as [? ?o2] eqn:?; simpl in *; subst
  end.

(** X1. An answer to the first POST with a status other than 200 ends
    the handshake with that status; its body is not decoded and no proof
    is posted. *)
Theorem first_post_status self w r0 r1 :
  let g := csrf_request self w in
  let p1 := first_post self w (text r0) in
  reply (dev w) [] g = Some r0 ->
  String.length (text r0) = 64%nat ->
  reply (dev w) [g] p1 = Some r1 ->
  status_code r1 <> 200 ->
  fst (connect self w) = Raise (ErrorAuthenticating (status_code r1)) /\
  issued w (snd (connect self w)) = [g; p1].
Proof.
  intros g p1 Hr0 Hlen Hr1 Hst. subst g p1.
  to_first_answer Hr0 Hlen Hr1.
  apply Z.eqb_neq in Hst. rewrite Hst. simpl. norm_issued. done.
Qed.

(** X2. An answer 200 to the first POST whose body is not JSON, is not
    an object, or is an object without [s] or without [B], ends the
    handshake with JSONDecodeError, TypeError, KeyError('s') or
    KeyError('B'); no proof is posted. *)
Theorem challenge_without_members self w r0 r1 :
  let g := csrf_request self w in
  let p1 := first_post self w (text r0) in
  reply (dev w) [] g = Some r0 ->
  String.length (text r0) = 64%nat ->
  reply (dev w) [g] p1 = Some r1 ->
  status_code r1 = 200 ->
  match json r1 with
  | None => fst (connect self w) = Raise JSONDecodeError
  | Some (JObj d) =>
      match assoc "s" d, assoc "B" d with
      | None, _ => fst (connect self w) = Raise (KeyError "s")
      | Some _, None => fst (connect self w) = Raise (KeyError "B")
      | Some _, Some _ => True
      end
  | Some _ => fst (connect self w) = Raise TypeError
  end /\
  (json r1 = None \/
   (forall d, json r1 = Some (JObj d) -> assoc "s" d = None \/ assoc "B" d = None) ->
   issued w (snd (connect self w)) = [g; p1]).
Proof.
  intros g p1 Hr0 Hlen Hr1 Hst. subst g p1.
  to_first_answer Hr0 Hlen Hr1.
  rewrite Hst. simpl.
  destruct (json r1) as [[| | | | |mem]|] eqn:Ej; simpl; norm_issued;
    try (split; [reflexivity | intros _; reflexivity]).
  destruct (assoc "s" mem) eqn:Es; simpl;
    [destruct (assoc "B" mem) eqn:EB; simpl|]; norm_issued;
    try (split; [reflexivity | intros _; reflexivity]).
  split; [done|]. intros [|Hd]; [done|].
  destruct (Hd _ eq_refl); congruence.
Qed.

(** X3. When [s] of the challenge is not a string, or [B] is null, a
    boolean or a number, the handshake ends with TypeError, also when the
    other member is a string that is not hexadecimal: [len] is taken of
    both members before either is decoded, and [s] is decoded first. *)
Theorem challenge_member_not_str self w r0 r1 j vs vB :
  let g := csrf_request self w in
  let p1 := first_post self w (text r0) in
  reply (dev w) [] g = Some r0 ->
  String.length (text r0) = 64%nat ->
  reply (dev w) [g] p1 = Some r1 ->
  status_code r1 = 200 ->
  json r1 = Some j ->
  py_getitem j "s" = Ok vs ->
  py_getitem j "B" = Ok vB ->
  (forall s, vs <> JStr s) \/ py_len vB = Raise TypeError ->
  fst (connect self w) = Raise TypeError /\
  issued w (snd (connect self w)) = [g; p1].
Proof.
  intros g p1 Hr0 Hlen Hr1 Hst Hj Hs HB Hns. subst g p1.
  to_first_answer Hr0 Hlen Hr1.
  rewrite Hst, Hj, Hs, HB. simpl.
  destruct Hns as [Hn|Hn].
  all: destruct vs; destruct vB; simpl in *;
    try (by destruct (Hn _ eq_refl)); try discriminate;
    unfold unhexlify; repeat case_step; norm_issued; done.
Qed.

(** X4. With status 200, what the body of the reply to the proof decodes
    to decides as follows when it is not an object: a body that is not
    JSON raises JSONDecodeError; null, a boolean or a number raise
    TypeError; an array or a string is searched for "error" (as an
    element, as a substring): found, TypeError is raised by the
    subscript, not found, the handshake succeeds. *)
Theorem proof_reply_not_object self w g p1 p2 r2 :
  let out := connect self w in
  issued w (snd out) = [g; p1; p2] ->
  reply (dev w) [g; p1] p2 = Some r2 ->
  status_code r2 = 200 ->
  match json r2 with
  | None => fst out = Raise JSONDecodeError
  | Some (JObj _) => True
  | Some (JArr items) =>
      fst out = if existsb (is_str "error") items
                then Raise TypeError else Ok (sessions w)
  | Some (JStr s) =>
      fst out = if str_contains "error" s
                then Raise TypeError else Ok (sessions w)
  | Some _ => fst out = Raise TypeError
  end.
Proof.
  intros out. subst out. intros Hiss Hr2 Hst. revert Hiss.
  unfold_connect.
  repeat case_step; norm_issued; intros Hiss; simplify_eq;
    unfold reply in Hr2; simpl in Hr2;
    repeat match goal with
           | E : serve _ _ = _ |- _ => rewrite E in Hr2; simpl in Hr2
           end; simplify_eq.
  all: repeat match goal with
              | E : negb (_ =? _) = _ |- _ =>
                  first [ apply negb_false_iff, Z.eqb_eq in E
                        | apply negb_true_iff, Z.eqb_neq in E ]
              end; try done.
  all: destruct (json r2) as [[| | | | |?]|]; simplify_eq; simpl in *;
    simplify_eq; try done.
  all: repeat match goal with
              | E : ?b = _ |- context [if ?b then _ else _] => rewrite E
              end; try done.
  all: congruence.
Qed.

Lemma py_getitem_exn (j : JSON) (k : string) (e : exn) :
  py_getitem j k = Raise e -> e <> RequestException /\ e <> JSONDecodeError.
Proof.
  destruct j; simpl; try (by intros [= <-]).
  destruct (assoc k members); by intros [= <-].
Qed.

Lemma py_len_exn (j : JSON) (e : exn) :
  py_len j = Raise e -> e <> RequestException /\ e <> JSONDecodeError.
Proof. destruct j; simpl; by intros [= <-]. Qed.

Lemma unhexlify_value_exn (j : JSON) (e : exn) :
  unhexlify_value j = Raise e ->
  e <> RequestException /\ e <> JSONDecodeError.
Proof.
  destruct j; simpl; try (by intros [= <-]).
  intros He. by destruct (unhexlify_raises _ _ He) as [-> | ->].
Qed.

Lemma py_contains_exn (k : string) (j : JSON) (e : exn) :
  py_contains k j = Raise e -> e <> RequestException /\ e <> JSONDecodeError.
Proof. destruct j; simpl; by intros [= <-]. Qed.

Lemma hexlify_value_exn (m : option (list byte)) (e : exn) :
  hexlify_value m = Raise e -> e <> RequestException /\ e <> JSONDecodeError.
Proof. destruct m; simpl; by intros [= <-]. Qed.

Lemma snoc_eq_1 {A} (pre : list A) (x a : A) :
  [a] = pre ++ [x] -> pre = [] /\ x = a.
Proof.
  intros E. change [a] with ([] ++ [a]) in E.
  apply app_inj_tail in E as []. done.
Qed.

Lemma snoc_eq_2 {A} (pre : list A) (x a b : A) :
  [a; b] = pre ++ [x] -> pre = [a] /\ x = b.
Proof.
  intros E. change [a; b] with ([a] ++ [b]) in E.
  apply app_inj_tail in E as []. done.
Qed.

Lemma snoc_eq_3 {A} (pre : list A) (x a b c : A) :
  [a; b; c] = pre ++ [x] -> pre = [a; b] /\ x = c.
Proof.
  intros E. change [a; b; c] with ([a; b] ++ [c]) in E.
  apply app_inj_tail in E as []. done.
Qed.

Ltac use_serve Hn :=
  unfold reply in Hn; simpl in Hn;
  repeat match goal with
         | E : serve _ _ = _ |- _ => rewrite E in Hn; simpl in Hn
         end.

Ltac norm_checks :=
  repeat match goal with
         | E : negb (_ =? _) = _ |- _ =>
             first [ apply negb_false_iff, Z.eqb_eq in E
                   | apply negb_true_iff, Z.eqb_neq in E ]
         | E : match json ?r with _ => _ end = _ |- _ =>
             destruct (json r) eqn:?; simplify_eq
         end.

(** X5. A request that gets no response stops the handshake at once: it
    is the last one issued and [connect] ends with the exception of the
    transport.  And [connect] ends with an exception raised inside a call
    into [requests] (no response, or [.json()] on a body that is not
    JSON) exactly when the last request it issued got no response, or
    was a POST answered 200 with a body that is not JSON. *)
Theorem requests_exceptions_iff self w :
  let out := connect self w in
  (forall pre rq post,
     issued w (snd out) = pre ++ rq :: post ->
     reply (dev w) pre rq = None ->
     post = [] /\ fst out = Raise RequestException) /\
  ((fst out = Raise RequestException \/ fst out = Raise JSONDecodeError) <->
   exists pre rq,
     issued w (snd out) = pre ++ [rq] /\
     (reply (dev w) pre rq = None \/
      (meth rq = POST /\
       exists r, reply (dev w) pre rq = Some r /\
                 status_code r = 200 /\ json r = None))).
Proof.
  intros out. subst out. unfold_connect.
  repeat case_step; norm_issued; norm_checks; split.
  (* an unanswered request is the last one *)
  all: try (intros pre rq post E Hn;
            destruct pre as [|? [|? [|? pre]]]; simpl in E; simplify_eq;
            try (by destruct pre);
            use_serve Hn; try discriminate; done).
  (* the two exceptions of calls into requests *)
  all: split; [intros [E|E] | intros (pre & rq & E & [Hn|(Hm & r' & Hn & Hs & Hj)])].
  all: try match type of E with
           | [_] = _ => apply snoc_eq_1 in E as [-> ->]
           | [_; _] = _ => apply snoc_eq_2 in E as [-> ->]
           | [_; _; _] = _ => apply snoc_eq_3 in E as [-> ->]
           end.
  all: try (use_serve Hn; simplify_eq).
  all: try discriminate.
  all: try congruence.
  all: try (by left).
  all: try (by right).
  all: try (exfalso;
            repeat match goal with
                   | Hx : py_getitem _ _ = Raise _ |- _ =>
                       apply py_getitem_exn in Hx as [? ?]
                   | Hx : py_len _ = Raise _ |- _ =>
                       apply py_len_exn in Hx as [? ?]
                   | Hx : unhexlify_value _ = Raise _ |- _ =>
                       apply unhexlify_value_exn in Hx as [? ?]
                   | Hx : py_contains _ _ = Raise _ |- _ =>
                       apply py_contains_exn in Hx as [? ?]
                   | Hx : hexlify_value _ = Raise _ |- _ =>
                       apply hexlify_value_exn in Hx as [? ?]
                   end; congruence).
  all: first [ eexists [], _; split; [reflexivity|]
             | eexists [_], _; split; [reflexivity|]
             | eexists [_; _], _; split; [reflexivity|] ];
    unfold reply; simpl;
    repeat match goal with
           | E : serve _ _ = _ |- _ => rewrite E; simpl
           end;
    first [ left; reflexivity
          | right; split; [reflexivity|]; eexists; repeat split; eassumption ].
Qed.

Lemma dev_after_snoc (d : dev_state) (l : list Request) (rq : Request) :
  dev_after d (l ++ [rq]) = fst (serve (dev_after d l) rq).
Proof. revert d. induction l as [|x l IH]; intros d; simpl; [done|apply IH]. Qed.

(** X6. A handshake creates one session and sends every one of its
    requests, between one and three, through it; when it succeeds that
    session is the one returned.  It creates at most one [srp.User].
    The device serves its requests one after the other and is left in
    the state after the last one. *)
Theorem connect_accounting self w :
  let w' := snd (connect self w) in
  sessions w' = S (sessions w) /\
  (users w <= users w' <= S (users w))%nat /\
  Forall (fun rq => via rq = sessions w) (issued w w') /\
  (1 <= length (issued w w') <= 3)%nat /\
  (forall s, fst (connect self w) = Ok s -> s = sessions w) /\
  dev w' = dev_after (dev w) (issued w w') /\
  sent w' = sent w ++ issued w w'.
Proof.
  unfold_connect.
  repeat case_step; norm_issued;
    repeat match goal with
           | E : serve _ _ = _ |- _ => rewrite E; simpl
           end;
    rewrite <- ?app_assoc; simpl;
    repeat split; try lia; try done;
    try (by repeat constructor);
    try (by intros s [= <-]).
Qed.

End HandshakeEnds.

(** ** More of [fetch]: which requests, on which session, to which URL *)

Section FetchTraffic.
Context `{Device} `{SrpLib}.
Implicit Types (self : Fetcher) (w : World).

Lemma append_inj_l (a b c : string) : a +:+ b = a +:+ c -> b = c.
Proof. induction a as [|x a IH]; simpl; [done|]. intros [= E]. auto. Qed.

Lemma starts_with_refl (a : string) : starts_with a a = true.
Proof. induction a as [|x a IH]; simpl; [done|]. by rewrite Ascii.eqb_refl. Qed.

Lemma starts_with_append (a b : string) : starts_with a (a +:+ b) = true.
Proof.
  induction a as [|x a IH]; simpl; [by destruct b|].
  by rewrite Ascii.eqb_refl.
Qed.

Lemma urls_differ self :
  csrf_url self <> modem_url self /\ auth_url self <> modem_url self.
Proof.
  unfold csrf_url, auth_url, modem_url.
  split; intros E; apply append_inj_l in E; discriminate.
Qed.

Lemma handshake_not_page self w ok rqs :
  handshake_requests self w ok rqs ->
  Forall (fun rq =>
            via rq = sessions w /\
            ((meth rq = GET /\ url rq = csrf_url self) \/
             (meth rq = POST /\ url rq = auth_url self))) rqs.
Proof.
  destruct 1; repeat first [apply List.Forall_nil | apply List.Forall_cons];
    simpl; auto 6.
Qed.

Lemma connect_ok_session self w s w1 :
  connect self w = (Ok s, w1) -> s = sessions w.
Proof.
  intros E. pose proof (connect_accounting self w) as (_ & _ & _ & _ & Hs & _).
  apply Hs. by rewrite E.
Qed.

(** The requests of one call of [fetch]. *)
Lemma fetch_issued self w :
  issued w (snd (fetch self w)) =
    match session self with
    | Some s => [page_request self s]
    | None =>
        match connect self w with
        | (Ok s, w1) => issued w w1 ++ [page_request self s]
        | (Raise _, w1) => issued w w1
        end
    end.
Proof.
  destruct (session self) as [s|] eqn:E.
  - rewrite (fetch_stored _ _ _ E).
    destruct (serve _ _) as [d [r|]]; by apply issued_app.
  - unfold fetch. rewrite E.
    pose proof (connect_extends self w) as X.
    destruct (connect self w) as [[s|e] w1]; simpl in *; [|done].
    unfold session_get, send.
    destruct (serve _ _) as [d [r|]]; simpl;
      apply issued_app; simpl; rewrite X, <- app_assoc; done.
Qed.

(** X7. [fetch] asks for the statistics page only through a session it
    holds: the one stored in the object, or the one [connect] has just
    returned.  After a handshake that failed no request for the page is
    made. *)
Theorem page_needs_session self w :
  Forall (fun rq =>
            url rq = modem_url self ->
            meth rq = GET /\
            (session self = Some (via rq) \/
             (session self = None /\ fst (connect self w) = Ok (via rq))))
         (issued w (snd (fetch self w))).
Proof.
  rewrite fetch_issued.
  destruct (session self) as [s|] eqn:E.
  - repeat first [apply List.Forall_nil | apply List.Forall_cons];
      simpl; auto.
  - pose proof (connect_requests self w) as R.
    apply handshake_not_page in R.
    destruct (urls_differ self) as [U1 U2].
    destruct (connect self w) as [[s|e] w1]; simpl in *.
    + apply Forall_app. split.
      * eapply Forall_impl; [exact R|]. simpl.
        intros rq (_ & [[_ Hu]|[_ Hu]]) Hm; congruence.
      * repeat first [apply List.Forall_nil | apply List.Forall_cons];
          simpl; auto.
    + eapply Forall_impl; [exact R|]. simpl.
      intros rq (_ & [[_ Hu]|[_ Hu]]) Hm; congruence.
Qed.

(** X8. The first [fetch] on an object whose handshake succeeds issues
    four requests, the CSRF GET, the two POSTs and the page GET, all
    through the session [connect] created. *)
Theorem first_fetch_requests self w s w1 :
  session self = None ->
  connect self w = (Ok s, w1) ->
  exists p1 p2,
    issued w (snd (fetch self w))
    = [csrf_request self w; p1; p2; page_request self s] /\
    meth p1 = POST /\ url p1 = auth_url self /\
    meth p2 = POST /\ url p2 = auth_url self /\
    Forall (fun rq => via rq = s) (issued w (snd (fetch self w))).
Proof.
  intros E C. rewrite fetch_issued, E, C.
  pose proof (connect_requests self w) as R.
  pose proof (connect_ok_session _ _ _ _ C) as ->.
  rewrite C in R. simpl in R. inversion R; subst.
  eexists _, _. repeat split; repeat constructor.
Qed.

Lemma fetch_times_length n self w :
  length (fst (fst (fetch_times n self w))) = n.
Proof.
  revert self w. induction n as [|n IH]; intros self w; simpl; [done|].
  destruct (fetch self w) as [[r self1] w1]. specialize (IH self1 w1).
  destruct (fetch_times n self1 w1) as [[rs self2] w2]. simpl in *. lia.
Qed.

(** X9. As long as the handshake fails, every call of [fetch] runs it
    again: after [n] calls on an object that started without a session,
    either no session is stored, all [n] calls raised and [n] sessions
    were created, or a session is stored, it is the one created by the
    first handshake that succeeded, and no session was created after
    it. *)
Theorem fetch_times_until_success n self w :
  session self = None ->
  let out := fetch_times n self w in
  length (fst (fst out)) = n /\
  match session (snd (fst out)) with
  | None =>
      sessions (snd out) = (n + sessions w)%nat /\
      Forall (fun r => is_Ok r = false) (fst (fst out))
  | Some s =>
      exists k, (k < n)%nat /\
        s = (k + sessions w)%nat /\
        sessions (snd out) = S s /\
        Forall (fun r => is_Ok r = false) (take k (fst (fst out)))
  end.
Proof.
  intros E. revert w. induction n as [|n IH]; intros w; simpl.
  - rewrite E. repeat split; constructor.
  - pose proof (connect_sessions self w) as Hs.
    destruct (connect self w) as [[s|e] w1] eqn:C.
    + pose proof (connect_ok_session _ _ _ _ C) as ->.
      unfold fetch. rewrite E, C. simpl in Hs.
      unfold session_get, send.
      destruct (serve _ _) as [d [r|]];
        match goal with
        | |- context [fetch_times n ?f ?w2] =>
            destruct (fetch_times_stored n f w2 (sessions w) eq_refl)
              as (I1 & I2 & I3 & I4);
            pose proof (fetch_times_length n f w2) as Hl;
            destruct (fetch_times n f w2) as [[rs self2] w2']
        end; simpl in *; subst; simpl;
        (split; [lia|]); exists 0%nat; repeat split; try lia; constructor.
    + unfold fetch. rewrite E, C. simpl in Hs.
      specialize (IH w1).
      destruct (fetch_times n self w1) as [[rs self2] w2]. simpl in *.
      destruct IH as [Hl IH]. split; [lia|].
      destruct (session self2) as [s|].
      * destruct IH as (k & Hk & -> & Hs' & Hf).
        exists (S k). rewrite Hs. repeat split; try lia.
        simpl. constructor; done.
      * destruct IH as [-> Hf]. rewrite Hs. split; [lia|].
        constructor; done.
Qed.

Lemma sent_trans w w1 w2 :
  sent w1 = sent w ++ issued w w1 ->
  sent w2 = sent w1 ++ issued w1 w2 ->
  sent w2 = sent w ++ issued w w2 /\
  issued w w2 = issued w w1 ++ issued w1 w2.
Proof.
  intros X1 X2.
  assert (sent w2 = sent w ++ (issued w w1 ++ issued w1 w2)) as E.
  { set (a := issued w w1) in *. set (b := issued w1 w2) in *.
    clearbody a b. by rewrite X2, X1, <- app_assoc. }
  pose proof (issued_app _ _ _ E) as I. rewrite I. done.
Qed.

(** X10. Whatever the number of calls, every request goes to one of the
    three URLs built on the top URL of the object, with the method that
    belongs to it: GET for the CSRF token and the page, POST for
    [/authenticate].  For an object made by [Fetcher.__init__] these
    URLs start with [http://] and the configured address. *)
Theorem requests_stay_on_host n self w :
  Forall (fun rq =>
            starts_with (top_url self) (url rq) = true /\
            ((meth rq = GET /\ url rq = csrf_url self) \/
             (meth rq = POST /\ url rq = auth_url self) \/
             (meth rq = GET /\ url rq = modem_url self)))
         (issued w (snd (fetch_times n self w))) /\
  (forall c, top_url (Fetcher_init c) = "http://" +:+ address c).
Proof.
  split; [|done].
  assert (forall self w,
    top_url (snd (fst (fetch self w))) = top_url self /\
    sent (snd (fetch self w)) = sent w ++ issued w (snd (fetch self w)) /\
    Forall (fun rq =>
            starts_with (top_url self) (url rq) = true /\
            ((meth rq = GET /\ url rq = csrf_url self) \/
             (meth rq = POST /\ url rq = auth_url self) \/
             (meth rq = GET /\ url rq = modem_url self)))
         (issued w (snd (fetch self w)))) as One.
  { clear. intros self w.
    assert (forall rq : Request,
      (meth rq = GET /\ url rq = csrf_url self) \/
      (meth rq = POST /\ url rq = auth_url self) \/
      (meth rq = GET /\ url rq = modem_url self) ->
      starts_with (top_url self) (url rq) = true /\
      ((meth rq = GET /\ url rq = csrf_url self) \/
       (meth rq = POST /\ url rq = auth_url self) \/
       (meth rq = GET /\ url rq = modem_url self))) as Hst.
    { intros rq Hrq. split; [|done].
      destruct Hrq as [[_ ->]|[[_ ->]|[_ ->]]]; apply starts_with_append. }
    split; [|split].
    - unfold fetch. destruct (session self); simpl.
      + unfold session_get, send. by destruct (serve _ _) as [d [r|]].
      + destruct (connect self w) as [[s|e] w1]; simpl; [|done].
        unfold session_get, send. by destruct (serve _ _) as [d [r|]].
    - rewrite fetch_issued. unfold fetch.
      pose proof (connect_extends self w) as X.
      destruct (session self) as [s|]; simpl.
      + unfold session_get, send. by destruct (serve _ _) as [d [r|]].
      + destruct (connect self w) as [[s|e] w1]; simpl in *; [|done].
        unfold session_get, send.
        destruct (serve _ _) as [d [r|]]; simpl; by rewrite X, <- app_assoc.
    - rewrite fetch_issued.
      pose proof (connect_requests self w) as R.
      apply handshake_not_page in R.
      assert (Forall (fun rq =>
            starts_with (top_url self) (url rq) = true /\
            ((meth rq = GET /\ url rq = csrf_url self) \/
             (meth rq = POST /\ url rq = auth_url self) \/
             (meth rq = GET /\ url rq = modem_url self)))
         (issued w (snd (connect self w)))) as R'.
      { eapply Forall_impl; [exact R|]. simpl.
        intros rq (_ & [?|?]); apply Hst; auto. }
      destruct (session self) as [s|].
      + repeat first [apply List.Forall_nil | apply List.Forall_cons];
          apply Hst; simpl; auto.
      + destruct (connect self w) as [[s|e] w1]; simpl in *; [|done].
        apply Forall_app. split; [done|].
        repeat first [apply List.Forall_nil | apply List.Forall_cons];
          apply Hst; simpl; auto. }
  assert (forall n self w,
    sent (snd (fetch_times n self w))
      = sent w ++ issued w (snd (fetch_times n self w)) /\
    Forall (fun rq =>
            starts_with (top_url self) (url rq) = true /\
            ((meth rq = GET /\ url rq = csrf_url self) \/
             (meth rq = POST /\ url rq = auth_url self) \/
             (meth rq = GET /\ url rq = modem_url self)))
         (issued w (snd (fetch_times n self w)))) as Many; [|apply Many].
  clear n self w. induction n as [|n IH]; intros self w; simpl.
  - unfold issued. rewrite drop_all, app_nil_r. split; [done|constructor].
  - destruct (One self w) as (T & X & F).
    destruct (fetch self w) as [[r self1] w1]. simpl in *.
    destruct (IH self1 w1) as [X' F'].
    destruct (fetch_times n self1 w1) as [[rs self2] w2]. simpl in *.
    destruct (sent_trans _ _ _ X X') as [X2 E2].
    split; [done|]. rewrite E2. apply Forall_app. split; [done|].
    unfold csrf_url, auth_url, modem_url in *. by rewrite <- T.
Qed.

End FetchTraffic.

(** ** More of [parse]: where it looks, and what each failure is *)

Section ExtractionEnds.
Context `{PageLib}.

Lemma node_induction (P : node -> Prop) :
  (forall s, P (NavigableString s)) ->
  (forall nm c, Forall P c -> P (Tag nm c)) ->
  forall n, P n.
Proof.
  intros Hs Ht. fix IH 1. intros [s|nm c]; [apply Hs|].
  apply Ht. induction c as [|x c IHc]; constructor; [apply IH|apply IHc].
Qed.

Lemma locate_tag title anc nm c :
  locate title anc (Tag nm c) = first_in title (Tag nm c :: anc) c.
Proof. reflexivity. Qed.

Lemma first_in_cons title p x l :
  first_in title p (x :: l) =
    match locate title p x with
    | Some a => Some a
    | None => first_in title p l
    end.
Proof. reflexivity. Qed.

Lemma locate_None title n :
  forall anc, locate title anc n = None <-> ~ In title (strings n).
Proof.
  induction n as [s|nm c IH] using node_induction; intros anc.
  - simpl. destruct (String.eqb_spec s title) as [->|Hne].
    + split; [done|]. intros Hn. destruct Hn. by left.
    + split; [|done]. intros _ [E|[]]. done.
  - rewrite locate_tag. generalize (Tag nm c :: anc). intros p.
    simpl strings. induction IH as [|x c Hx _ IHc].
    + simpl. split; [|done]. by intros _ [].
    + rewrite first_in_cons. simpl. rewrite in_app_iff.
      destruct (locate title p x) eqn:E.
      * split; [done|]. intros Hn.
        assert (locate title p x <> None) as Hs by (by rewrite E).
        rewrite Hx in Hs. destruct Hn. left.
        destruct (in_dec string_dec title (strings x)); [done|].
        by destruct Hs.
      * apply Hx in E. rewrite IHc. tauto.
Qed.

Lemma first_in_None title p l :
  first_in title p l = None <-> ~ In title (page_strings l).
Proof.
  unfold page_strings. induction l as [|x l IH].
  - simpl. split; [|done]. by intros _ [].
  - rewrite first_in_cons. simpl. rewrite in_app_iff.
    destruct (locate title p x) eqn:E.
    + split; [done|]. intros Hn.
      assert (locate title p x <> None) as Hs by (by rewrite E).
      rewrite locate_None in Hs. destruct Hn. left.
      destruct (in_dec string_dec title (strings x)); [done|].
      by destruct Hs.
    + apply locate_None in E. rewrite IH. tauto.
Qed.

Lemma first_in_app title p l1 l2 :
  ~ In title (page_strings l1) ->
  first_in title p (l1 ++ l2) = first_in title p l2.
Proof.
  unfold page_strings. induction l1 as [|x l1 IH]; [done|].
  cbn [flat_map]. rewrite in_app_iff. intros Hn.
  change ((x :: l1) ++ l2) with (x :: (l1 ++ l2)). rewrite first_in_cons.
  destruct (locate title p x) eqn:E.
  - assert (locate title p x <> None) as Hs by (by rewrite E).
    rewrite locate_None in Hs. destruct Hs. tauto.
  - apply IH. tauto.
Qed.

(** X11. [fetch_pair] raises IndexError exactly when no string of the
    page equals the title; a page without the string "Line Rate" makes
    [parse] raise IndexError. *)
Theorem label_absent_index_error (soup : list node) (title unit : string) :
  (fetch_pair soup title unit = Raise IndexError <->
   ~ In title (page_strings soup)) /\
  (forall html, soup = BeautifulSoup html ->
     ~ In "Line Rate" (page_strings soup) ->
     parse html = Raise IndexError).
Proof.
  assert (forall t u, fetch_pair soup t u = Raise IndexError <->
                      ~ In t (page_strings soup)) as Hiff.
  { intros t u. unfold fetch_pair, grandparent, document.
    rewrite locate_tag, <- (first_in_None t [Tag "[document]" soup] soup).
    destruct (first_in t _ soup) as [[|? [|? ?]]|]; simpl; split; done. }
  split; [apply Hiff|].
  intros html -> Hn. apply (Hiff _ "Mbps") in Hn.
  unfold parse, parse_soup, assign_pair. by rewrite Hn.
Qed.

(** X12. When the first string equal to the title is a direct child of
    the document, [fetch_pair] raises AttributeError: the parent of that
    string is the document, whose own parent is None. *)
Theorem label_at_top_attribute_error
    (pre post : list node) (title unit : string) :
  ~ In title (page_strings pre) ->
  fetch_pair (pre ++ NavigableString title :: post) title unit
  = Raise AttributeError.
Proof.
  intros Hn. unfold fetch_pair, grandparent, document.
  rewrite locate_tag, first_in_app, first_in_cons by done.
  simpl. by rewrite String.eqb_refl.
Qed.

(** X13. When the first string equal to the title is a child of a tag
    that is itself a direct child of the document, the section searched
    is the whole document: [fetch_pair] finds every string of the page
    that holds the unit. *)
Theorem label_below_top_tag_whole_page
    (pre post cpre cpost : list node) (nm title unit : string) :
  ~ In title (page_strings pre) ->
  ~ In title (page_strings cpre) ->
  let soup :=
    pre ++ Tag nm (cpre ++ NavigableString title :: cpost) :: post in
  fetch_pair soup title unit
  = Ok (List.filter (re_search unit) (page_strings soup)).
Proof.
  intros Hp Hc soup. subst soup. unfold fetch_pair, grandparent, document.
  rewrite locate_tag, first_in_app, first_in_cons by done.
  rewrite locate_tag, first_in_app, first_in_cons by done.
  simpl locate. rewrite String.eqb_refl. reflexivity.
Qed.

Lemma locate_plug (title : string) (fs : list frame)
    (g p : string) (gpre gpost cpre cpost : list node) :
  let P := Tag p (cpre ++ NavigableString title :: cpost) in
  let G := Tag g (gpre ++ P :: gpost) in
  clear_before title fs ->
  ~ In title (page_strings gpre) ->
  ~ In title (page_strings cpre) ->
  forall anc, exists rest,
    locate title anc (plug fs G) = Some (P :: G :: rest).
Proof.
  intros P G Hfs Hg Hc. induction Hfs as [|[[nm l] r] fs Hl _ IH]; intros anc.
  - exists anc. simpl plug. subst G.
    rewrite locate_tag, first_in_app, first_in_cons by done. fold P.
    subst P. rewrite locate_tag, first_in_app, first_in_cons by done.
    simpl locate. by rewrite String.eqb_refl.
  - simpl plug. simpl in Hl.
    rewrite locate_tag, first_in_app, first_in_cons by done.
    destruct (IH (Tag nm (l ++ plug fs G :: r) :: anc)) as [rest ->].
    eauto.
Qed.

(** X18. When the first string equal to the title lies in a tag [P]
    inside a tag [G], at whatever depth in the page, the section searched
    is [G]: [fetch_pair] finds the strings of [G] that hold the unit, in
    document order, and no string outside [G]. *)
Theorem label_section_is_grandparent
    (pre post : list node) (fs : list frame) (title unit g p : string)
    (gpre gpost cpre cpost : list node) :
  let G := Tag g (gpre ++ Tag p (cpre ++ NavigableString title :: cpost)
                        :: gpost) in
  ~ In title (page_strings pre) ->
  clear_before title fs ->
  ~ In title (page_strings gpre) ->
  ~ In title (page_strings cpre) ->
  fetch_pair (pre ++ plug fs G :: post) title unit
  = Ok (List.filter (re_search unit) (strings G)).
Proof.
  intros G Hp Hfs Hg Hc. unfold fetch_pair, grandparent, document.
  rewrite locate_tag, first_in_app, first_in_cons by done.
  destruct (locate_plug title fs g p gpre gpost cpre cpost Hfs Hg Hc
              [Tag "[document]" (pre ++ plug fs G :: post)]) as [rest E].
  fold G in E. rewrite E. reflexivity.
Qed.

Lemma starts_with_prefix (p q t : string) :
  starts_with (p +:+ q) t = true -> starts_with p t = true.
Proof.
  revert t. induction p as [|a p IH]; intros t; simpl; [by destruct t|].
  destruct t as [|b t]; [done|]. destruct (Ascii.eqb a b); [apply IH|done].
Qed.

Lemma str_contains_prefix (p q t : string) :
  str_contains (p +:+ q) t = true -> str_contains p t = true.
Proof.
  induction t as [|b t IH].
  - simpl. rewrite !orb_false_r. apply starts_with_prefix.
  - cbn [str_contains]. rewrite !orb_true_iff.
    intros [E|E]; [left; by eapply starts_with_prefix|right; auto].
Qed.

(** X14. The unit [dB] also finds the strings that hold [dBm]: in one
    and the same section, every value found for [dBm] is among the
    values found for [dB], in the same order. *)
Theorem dBm_values_count_as_dB (soup : list node) (title : string) l :
  fetch_pair soup title "dBm" = Ok l ->
  exists l', fetch_pair soup title "dB" = Ok l' /\ sublist l l'.
Proof.
  unfold fetch_pair. destruct (grandparent soup title) as [gp|e]; [|done].
  simpl. intros [= <-]. eexists. split; [done|].
  unfold find_all_string. induction (strings gp) as [|t ts IH]; [done|].
  simpl. destruct (re_search "dBm" t) eqn:E.
  - unfold re_search in *.
    rewrite (str_contains_prefix "dB" "m" t E). by constructor.
  - destruct (re_search "dB" t); [by constructor|done].
Qed.

Lemma unpack2_Ok (unit : string) l x y :
  unpack2 unit l = Ok (x, y) ->
  exists t1 t2, l = [t1; t2] /\
    convert unit t1 = Ok x /\ convert unit t2 = Ok y.
Proof.
  destruct l as [|t1 [|t2 [|t3 l]]]; simpl; try done.
  - by destruct (convert unit t1).
  - destruct (convert unit t1) eqn:E1; [|done]. simpl.
    destruct (convert unit t2) eqn:E2; [|done]. simpl.
    intros [= <- <-]. eauto.
  - destruct (convert unit t1); [|done]. simpl.
    destruct (convert unit t2); [|done]. simpl.
    by destruct (convert unit t3).
Qed.

Lemma assign_pair_Ok soup up down title unit res res' :
  assign_pair soup up down title unit res = Ok res' ->
  exists t1 t2 x y,
    fetch_pair soup title unit = Ok [t1; t2] /\
    convert unit t1 = Ok x /\ convert unit t2 = Ok y /\
    res' = <[down := y]> (<[up := x]> res).
Proof.
  unfold assign_pair. destruct (fetch_pair soup title unit) as [l|]; [|done].
  simpl. destruct (unpack2 unit l) as [[x y]|] eqn:E; [|done].
  simpl. intros [= <-].
  destruct (unpack2_Ok _ _ _ _ E) as (t1 & t2 & -> & C1 & C2).
  eexists _, _, _, _. eauto.
Qed.

(** X15. A mapping returned by [parse] has the eight keys and no other,
    and behind each pair of keys the section of the metric held exactly
    two strings with the unit, the first converted into the up value
    and the second into the down value. *)
Theorem parse_Ok_inversion (html : string) res :
  parse html = Ok res ->
  dom res = list_to_set
    ["up_rate"; "down_rate"; "up_power"; "down_power";
     "up_attenuation"; "down_attenuation";
     "up_noisemargin"; "down_noisemargin"] /\
  forall up down title unit, In (up, down, title, unit) metrics ->
    exists t1 t2 x y,
      fetch_pair (BeautifulSoup html) title unit = Ok [t1; t2] /\
      convert unit t1 = Ok x /\ convert unit t2 = Ok y /\
      res !! up = Some x /\ res !! down = Some y.
Proof.
  unfold parse, parse_soup.
  destruct (assign_pair _ "up_rate" _ _ _ _) as [r1|] eqn:A1; [|done].
  cbn [rbind].
  destruct (assign_pair _ "up_power" _ _ _ _) as [r2|] eqn:A2; [|done].
  cbn [rbind].
  destruct (assign_pair _ "up_attenuation" _ _ _ _) as [r3|] eqn:A3; [|done].
  cbn [rbind].
  destruct (assign_pair _ "up_noisemargin" _ _ _ _) as [r4|] eqn:A4; [|done].
  cbn [rbind]. intros [= <-].
  apply assign_pair_Ok in A1 as (a1 & a2 & ax & ay & Fa & Ca1 & Ca2 & ->).
  apply assign_pair_Ok in A2 as (b1 & b2 & bx & by_ & Fb & Cb1 & Cb2 & ->).
  apply assign_pair_Ok in A3 as (c1 & c2 & cx & cy & Fc & Cc1 & Cc2 & ->).
  apply assign_pair_Ok in A4 as (d1 & d2 & dx & dy & Fd & Cd1 & Cd2 & ->).
  split.
  - rewrite !dom_insert_L, dom_empty_L. set_solver.
  - intros up down title unit Hin. simpl in Hin.
    destruct Hin as [E|[E|[E|[E|[]]]]]; injection E as <- <- <- <-;
      eexists _, _, _, _; (split; [eassumption|]);
      (split; [eassumption|]); (split; [eassumption|]);
      split; by simplify_map_eq.
Qed.

(** X16. [parse] reads the metrics in the order Line Rate, Output Power,
    Line Attenuation, Noise Margin and stops at the first one that
    fails: the exception it raises is the one of that metric, and the
    metrics after it are not looked at. *)
Theorem parse_first_failure (soup : list node) (e : exn) :
  parse_soup soup = Raise e <->
  exists pre m post,
    metrics = pre ++ m :: post /\
    Forall (fun m' => is_Ok (pair_of soup m') = true) pre /\
    pair_of soup m = Raise e.
Proof.
  assert (forall up down title unit res,
    assign_pair soup up down title unit res =
      match pair_of soup (up, down, title, unit) with
      | Ok (x, y) => Ok (<[down := y]> (<[up := x]> res))
      | Raise e' => Raise e'
      end) as Hap.
  { intros. unfold assign_pair, pair_of.
    destruct (fetch_pair soup title unit); [|done]. simpl.
    by destruct (unpack2 unit a) as [[]|]. }
  unfold parse_soup. rewrite !Hap. unfold metrics. split.
  - destruct (pair_of soup ("up_rate", _, _, _)) as [[]|e1] eqn:P1; cbn [rbind].
    2: { intros [= ->]. eexists [], _, _. repeat split; [constructor|done]. }
    rewrite ?Hap.
    destruct (pair_of soup ("up_power", _, _, _)) as [[]|e2] eqn:P2; cbn [rbind].
    2: { intros [= ->]. eexists [_], _, _.
         repeat split; [|done]. repeat constructor. by rewrite P1. }
    rewrite ?Hap.
    destruct (pair_of soup ("up_attenuation", _, _, _)) as [[]|e3] eqn:P3;
      cbn [rbind].
    2: { intros [= ->]. eexists [_; _], _, _.
         repeat split; [|done]. repeat constructor; by rewrite ?P1, ?P2. }
    rewrite ?Hap.
    destruct (pair_of soup ("up_noisemargin", _, _, _)) as [[]|e4] eqn:P4;
      cbn [rbind]; [done|].
    intros [= ->]. eexists [_; _; _], _, [].
    repeat split; [|done]. repeat constructor; by rewrite ?P1, ?P2, ?P3.
  - intros (pre & m & post & E & Hpre & Hm).
    destruct pre as [|m1 [|m2 [|m3 [|m4 pre]]]]; simpl in E; simplify_eq.
    + by rewrite Hm.
    + apply Forall_cons in Hpre as [H1 _].
      destruct (pair_of soup ("up_rate", _, _, _)) as [[]|]; [|done].
      cbn [rbind]. by rewrite ?Hap, Hm.
    + apply Forall_cons in Hpre as [H1 Hpre].
      apply Forall_cons in Hpre as [H2 _].
      destruct (pair_of soup ("up_rate", _, _, _)) as [[]|]; [|done].
      cbn [rbind]. rewrite ?Hap.
      destruct (pair_of soup ("up_power", _, _, _)) as [[]|]; [|done].
      cbn [rbind]. by rewrite ?Hap, Hm.
    + apply Forall_cons in Hpre as [H1 Hpre].
      apply Forall_cons in Hpre as [H2 Hpre].
      apply Forall_cons in Hpre as [H3 _].
      destruct (pair_of soup ("up_rate", _, _, _)) as [[]|]; [|done].
      cbn [rbind]. rewrite ?Hap.
      destruct (pair_of soup ("up_power", _, _, _)) as [[]|]; [|done].
      cbn [rbind]. rewrite ?Hap.
      destruct (pair_of soup ("up_attenuation", _, _, _)) as [[]|]; [|done].
      cbn [rbind]. by rewrite ?Hap, Hm.
    + destruct pre; discriminate.
Qed.

End ExtractionEnds.

(** ** The hexadecimal fields of the two POSTs *)

Section WireEncoding.
Context `{Device} `{SrpLib}.

Lemma byte_hex (x : byte) :
  let n := Byte.to_N x in
  hexval (hexdigit (n / 16)) = Some (n / 16)%N /\
  hexval (hexdigit (n mod 16)) = Some (n mod 16)%N /\
  Byte.of_N (16 * (n / 16) + n mod 16) = Some x /\
  (N_of_ascii (hexdigit (n / 16)) <? 128)%N = true /\
  (N_of_ascii (hexdigit (n mod 16)) <? 128)%N = true.
Proof. destruct x; vm_compute; done. Qed.

Lemma hexlify_unhexlify (b : list byte) :
  unhexlify (hexlify b) = Ok b /\
  String.length (hexlify b) = (2 * length b)%nat.
Proof.
  assert (all_ascii (hexlify b) = true /\ unhex_pairs (hexlify b) = Some b /\
          String.length (hexlify b) = (2 * length b)%nat) as (A & U & L).
  { induction b as [|x b (A & U & L)]; [done|].
    destruct (byte_hex x) as (H1 & H2 & H3 & H4 & H5).
    cbn [hexlify all_ascii unhex_pairs String.length length].
    cbv zeta in *. rewrite H1, H2, H3, H4, H5, A, U, L.
    repeat split; try done; lia. }
  unfold unhexlify. by rewrite A, U.
Qed.

(** X17. The [A] and [M] fields of the POSTs are the bytes SRP computed,
    two hexadecimal characters for each byte: [unhexlify] gives the
    bytes back. *)
Theorem posted_hex_decodes (self : Fetcher) (w : World) :
  Forall (fun rq =>
            (forall a, field "A" rq = Some a ->
               unhexlify a = Ok (srp_A (handshake_user self w)) /\
               String.length a
               = (2 * length (srp_A (handshake_user self w)))%nat) /\
            (forall m, field "M" rq = Some m ->
               exists s B M,
                 process_challenge (handshake_user self w) s B = Some M /\
                 unhexlify m = Ok M /\
                 String.length m = (2 * length M)%nat))
         (issued w (snd (connect self w))).
Proof.
  destruct (connect_requests self w);
    repeat first [apply List.Forall_nil | apply List.Forall_cons];
    (split; [intros a|intros m]); try discriminate; intros [= <-];
    first [ apply hexlify_unhexlify
          | eexists _, _, _; split; [eassumption|apply hexlify_unhexlify] ].
Qed.

End WireEncoding.

(** ** The additional statements, on runs against the test doubles *)
Module MoreRuns.
Import Demo.

(** X1 on a run: the first POST is answered 403. *)
Lemma forbidden_run :
  let w := boot [Some csrf_ok; Some (mkResponse 403 "Forbidden" None)] in
  fst (connect modem w) = Raise (ErrorAuthenticating 403) /\
  issued w (snd (connect modem w))
  = [csrf_request modem w; first_post modem w token64].
Proof.
  apply (first_post_status modem
           (boot [Some csrf_ok; Some (mkResponse 403 "Forbidden" None)])
           csrf_ok (mkResponse 403 "Forbidden" None));
    try reflexivity.
  simpl. lia.
Defined.

(** X2 on a run: the challenge has a salt and no [B]. *)
Lemma no_B_run :
  let r1 := mkResponse 200 "(json)" (Some (JObj [("s", JStr "ab12")])) in
  let w := boot [Some csrf_ok; Some r1] in
  fst (connect modem w) = Raise (KeyError "B").
Proof.
  exact (proj1
    (challenge_without_members modem
       (boot [Some csrf_ok;
              Some (mkResponse 200 "(json)" (Some (JObj [("s", JStr "ab12")])))])
       csrf_ok
       (mkResponse 200 "(json)" (Some (JObj [("s", JStr "ab12")])))
       eq_refl eq_refl eq_refl eq_refl)).
Defined.

(** X3 on a run: the salt is the number 5 and [B] is not hexadecimal. *)
Lemma number_salt_run :
  let r1 := mkResponse 200 "(json)"
              (Some (JObj [("s", JNum 5); ("B", JStr "zz")])) in
  let w := boot [Some csrf_ok; Some r1] in
  fst (connect modem w) = Raise TypeError /\
  issued w (snd (connect modem w))
  = [csrf_request modem w; first_post modem w token64].
Proof.
  apply (challenge_member_not_str modem
           (boot [Some csrf_ok;
                  Some (mkResponse 200 "(json)"
                          (Some (JObj [("s", JNum 5); ("B", JStr "zz")])))])
           csrf_ok
           (mkResponse 200 "(json)"
              (Some (JObj [("s", JNum 5); ("B", JStr "zz")])))
           (JObj [("s", JNum 5); ("B", JStr "zz")]) (JNum 5) (JStr "zz"));
    try reflexivity.
  left. intros s. discriminate.
Defined.

(** X4 on a run: the reply to the proof is the JSON array ["ok"], and the
    handshake returns the session. *)
Lemma array_reply_run :
  let r2 := mkResponse 200 "(json)" (Some (JArr [JStr "ok"])) in
  let w := boot [Some csrf_ok; Some (challenge "ab12" "cd34"); Some r2] in
  fst (connect modem w) = Ok 0%nat.
Proof.
  exact (proof_reply_not_object modem
           (boot [Some csrf_ok; Some (challenge "ab12" "cd34");
                  Some (mkResponse 200 "(json)" (Some (JArr [JStr "ok"])))])
           (csrf_request modem (boot happy))
           (first_post modem (boot happy) token64)
           (second_post modem (boot happy) token64 "69")
           (mkResponse 200 "(json)" (Some (JArr [JStr "ok"])))
           eq_refl eq_refl eq_refl).
Defined.

(** X8 on a run: the four requests of a first fetch. *)
Lemma first_fetch_run :
  let w := boot happy in
  exists p1 p2,
    issued w (snd (fetch modem w))
    = [csrf_request modem w; p1; p2; page_request modem 0%nat] /\
    meth p1 = POST /\ url p1 = auth_url modem /\
    meth p2 = POST /\ url p2 = auth_url modem /\
    Forall (fun rq => via rq = 0%nat) (issued w (snd (fetch modem w))).
Proof.
  exact (first_fetch_requests modem (boot happy) 0%nat
           (snd (connect modem (boot happy))) eq_refl eq_refl).
Defined.

(** X9 on a run: two handshakes fail, the third succeeds, a fourth call
    reuses its session. *)
Lemma retry_run :
  let w := boot [Some csrf_short; Some csrf_short;
                 Some csrf_ok; Some (challenge "ab12" "cd34");
                 Some proof_ok; Some page_ok; Some page_ok] in
  let out := fetch_times 4 modem w in
  length (fst (fst out)) = 4%nat /\
  match session (snd (fst out)) with
  | None =>
      sessions (snd out) = (4 + sessions w)%nat /\
      Forall (fun r => is_Ok r = false) (fst (fst out))
  | Some s =>
      exists k, (k < 4)%nat /\
        s = (k + sessions w)%nat /\
        sessions (snd out) = S s /\
        Forall (fun r => is_Ok r = false) (take k (fst (fst out)))
  end.
Proof.
  exact (fetch_times_until_success 4 modem
           (boot [Some csrf_short; Some csrf_short;
                  Some csrf_ok; Some (challenge "ab12" "cd34");
                  Some proof_ok; Some page_ok; Some page_ok]) eq_refl).
Defined.

(** X12 on a page: the title is a string at the top of the document. *)
Lemma title_at_top_run :
  fetch_pair (BeautifulSoup "Line Rate<b>12.3 Mbps</b><b>98.7 Mbps</b>")
    "Line Rate" "Mbps"
  = Raise AttributeError.
Proof.
  exact (label_at_top_attribute_error []
           [Tag "b" [NavigableString "12.3 Mbps"];
            Tag "b" [NavigableString "98.7 Mbps"]]
           "Line Rate" "Mbps" (fun f => f)).
Defined.

(** X13 on a page: the title is in a paragraph at the top of the
    document, and the values of the whole page are found. *)
Lemma title_in_top_tag_run :
  fetch_pair
    (BeautifulSoup "<p>Line Rate</p><b>12.3 Mbps</b><b>98.7 Mbps</b>")
    "Line Rate" "Mbps"
  = Ok ["12.3 Mbps"; "98.7 Mbps"].
Proof.
  exact (label_below_top_tag_whole_page []
           [Tag "b" [NavigableString "12.3 Mbps"];
            Tag "b" [NavigableString "98.7 Mbps"]]
           [] [] "p" "Line Rate" "Mbps" (fun f => f) (fun f => f)).
Defined.

(** X18 on a page: the values of the Line Rate row, and not the one of
    the row after it. *)
Lemma rate_row_only_run :
  fetch_pair
    (BeautifulSoup
       ("<table><tr><td>Line Rate</td><td>12.3 Mbps</td><td>98.7 Mbps</td></tr>"
        +:+ "<tr><td>Sync</td><td>1 Mbps</td></tr></table>"))
    "Line Rate" "Mbps"
  = Ok ["12.3 Mbps"; "98.7 Mbps"].
Proof.
  apply (label_section_is_grandparent [] []
           [("table", [],
             [Tag "tr" [Tag "td" [NavigableString "Sync"];
                        Tag "td" [NavigableString "1 Mbps"]]])]
           "Line Rate" "Mbps" "tr" "td" []
           [Tag "td" [NavigableString "12.3 Mbps"];
            Tag "td" [NavigableString "98.7 Mbps"]] [] []).
  - simpl. tauto.
  - apply List.Forall_cons; [simpl; tauto | apply List.Forall_nil].
  - simpl. tauto.
  - simpl. tauto.
Defined.

(** X14 on a page: the two dBm values of the Output Power row are found
    for the unit dB as well. *)
Lemma power_row_run :
  exists l',
    fetch_pair (BeautifulSoup page_html) "Output Power" "dB" = Ok l' /\
    sublist ["7.5 dBm"; "13.1 dBm"] l'.
Proof.
  exact (dBm_values_count_as_dB (BeautifulSoup page_html) "Output Power"
           ["7.5 dBm"; "13.1 dBm"] eq_refl).
Defined.

(** X15 on a page: the mapping of the fixture page. *)
Lemma fixture_keys_run :
  exists res,
    parse page_html = Ok res /\
    dom res = list_to_set
      ["up_rate"; "down_rate"; "up_power"; "down_power";
       "up_attenuation"; "down_attenuation";
       "up_noisemargin"; "down_noisemargin"].
Proof.
  destruct (parse page_html) as [res|e] eqn:E.
  - exists res. split; [reflexivity|].
    exact (proj1 (parse_Ok_inversion page_html res E)).
  - vm_compute in E. discriminate E.
Defined.

End MoreRuns.
